(** * DivvyDroid: the screen-capture worker (src/device/videothread.cpp)

    A shallow embedding of [VideoThread]: the byte-source callback handed to
    the demuxer ([read_packet]), probing ([h264Init]), stream selection
    ([h264VideoStreamIndex]), the decode loop ([h264Loop]), the teardown
    ([h264Exit]) and the snapshot loop ([nativeLoop]).

    The worker talks to three collaborators that are not part of the file:
    the device connection (AdbClient over a Qt socket), FFmpeg (libavformat,
    libavcodec, libswscale) and Qt's QImage.  Their answers are given to the
    model as scripts: every call that the C++ code makes on a collaborator
    consumes the next scripted answer, so a definition can be run on a
    concrete script, and a theorem quantifies over all scripts.  A loop that
    is still running when its script is used up yields [None]. *)

From Stdlib Require Import ZArith Lia.
From stdpp Require Import base numbers list gmap.

Local Open Scope Z_scope.

(** ** FFmpeg error codes (libavutil/error.h) *)

Module AV.

(** errno value of EAGAIN on Linux and Android, the platforms of the tool. *)
Definition EAGAIN : Z := 11.

(** [AVERROR(e)] is [-(e)] on every platform whose errno values are positive. *)
Definition AVERROR (e : Z) : Z := - e.

(** [MKTAG(a,b,c,d)] = a | b << 8 | c << 16 | d << 24. *)
Definition MKTAG (a b c d : Z) : Z :=
  Z.lor (Z.lor (Z.lor a (Z.shiftl b 8)) (Z.shiftl c 16)) (Z.shiftl d 24).

(** [AVERROR_EOF] = FFERRTAG('E','O','F',' ') = -MKTAG('E','O','F',' '). *)
Definition AVERROR_EOF : Z := - MKTAG 69 79 70 32.

Inductive AVMediaType :=
| AVMEDIA_TYPE_UNKNOWN
| AVMEDIA_TYPE_VIDEO
| AVMEDIA_TYPE_AUDIO
| AVMEDIA_TYPE_DATA
| AVMEDIA_TYPE_SUBTITLE
| AVMEDIA_TYPE_ATTACHMENT.

Definition is_video (t : AVMediaType) : bool :=
  match t with AVMEDIA_TYPE_VIDEO => true | _ => false end.

End AV.

(** ** Qt values the worker handles *)

Module Qt.

(** QAbstractSocket::SocketError, the values a TCP client can see. *)
Inductive SocketError :=
| ConnectionRefusedError
| RemoteHostClosedError
| HostNotFoundError
| SocketAccessError
| SocketResourceError
| SocketTimeoutError
| NetworkError
| UnknownSocketError.

Definition is_remote_closed (e : SocketError) : bool :=
  match e with RemoteHostClosedError => true | _ => false end.

Definition is_timeout (e : SocketError) : bool :=
  match e with SocketTimeoutError => true | _ => false end.

(** QImage::Format, the formats that occur here. *)
Inductive Format :=
| Format_Invalid
| Format_RGB32
| Format_ARGB32
| Format_ARGB32_Premultiplied
| Format_RGB888.

(** What is known of an image's pixels: nothing allocated, allocated and
    not yet written, one colour everywhere (0xRRGGBB), or a picture. *)
Inductive Pixels :=
| NoPixels
| Uninitialized
| Solid (rgb : Z)
| Picture.

Record QImage := mkQImage {
  width : Z;
  height : Z;
  format : Format;
  pixels : Pixels
}.

(** The default-constructed (null) image: [QImage()]. *)
Definition null_image : QImage := mkQImage 0 0 Format_Invalid NoPixels.

Definition isNull (img : QImage) : bool :=
  match pixels img with NoPixels => true | _ => false end.

(** [QImage(w, h, format)]: a null image when a dimension is not positive. *)
Definition new_image (w h : Z) (f : Format) : QImage :=
  if (w <=? 0) || (h <=? 0) then null_image else mkQImage w h f Uninitialized.

(** [img.fill(color)]: nothing happens on a null image. *)
Definition fill (rgb : Z) (img : QImage) : QImage :=
  if isNull img then img
  else mkQImage (width img) (height img) (format img) (Solid rgb).

Definition black : Z := 0.

(** The image that holds the decoded picture after the scan lines were
    copied into it. *)
Definition with_picture (img : QImage) : QImage :=
  if isNull img then img
  else mkQImage (width img) (height img) (format img) Picture.

(** Format of the result of a smooth scale (QImage::smoothScaled): 32-bit
    formats are kept, the others are converted to a 32-bit format first. *)
Definition smooth_format (f : Format) : Format :=
  match f with
  | Format_RGB32 => Format_RGB32
  | Format_ARGB32_Premultiplied => Format_ARGB32_Premultiplied
  | Format_ARGB32 => Format_ARGB32_Premultiplied
  | Format_RGB888 => Format_RGB32
  | Format_Invalid => Format_Invalid
  end.

(** Height of the result of a smooth scale to width [w]:
    int(factor * height + 0.9999) with factor = w / width.  Qt evaluates
    this in double precision, the model in exact arithmetic, so the two can
    differ by one where the exact value is within a rounding error of an
    integer; the properties below state no more of this height than
    that it lies within one pixel of w * height / width, which both
    do. *)
Definition scaled_height (w : Z) (img : QImage) : Z :=
  (10000 * w * height img + 9999 * width img) / (10000 * width img).

(** [img.scaledToWidth(w, Qt::SmoothTransformation)]: a null image for a
    null source or a width that is not positive; the image itself when the
    factor is one; otherwise an image of width [w] whose height keeps the
    aspect ratio of the source (a null image when that height is zero). *)
Definition scaledToWidth (w : Z) (img : QImage) : QImage :=
  if isNull img then null_image
  else if w <=? 0 then null_image
  else if w =? width img then img
  else if scaled_height w img <=? 0 then null_image
  else mkQImage w (scaled_height w img) (smooth_format (format img)) (pixels img).

End Qt.

(** ** The worker object, the heap it allocates from, and what it does *)

(** Heap blocks are numbered; a pointer is [nullptr] or holds the number
    of the block it points to (allocated or, for a dangling pointer, freed). *)
Definition block := positive.
Definition ptr := option block.
Definition nullptr : ptr := None.
Definition is_null (p : ptr) : bool :=
  match p with None => true | Some _ => false end.

(** Modelled from the spec: the enumeration VideoThread::VideMode, which
    the missing header videothread.h declares: the compressed-stream mode
    and the three snapshot modes, under the names the file uses. *)
Inductive VideMode :=
| FastH264
| NativeJpg
| NativeRaw
| NativePng.

(** The texts written with qDebug and qWarning. *)
Inductive LogMsg :=
| LogExecFailed                         (* error executing <cmd> *)
| LogConnected                          (* connected *)
| LogHostDisconnected (e : Qt.SocketError)
| LogSocketReadFailed (e : Qt.SocketError)
| LogOpenInputFailed (ret : Z)          (* can't open input *)
| LogStreamInfoFailed (ret : Z)         (* can't find stream information *)
| LogNoDecoder (i : Z)
| LogCtxAllocFailed (i : Z)
| LogParamsFailed (i ret : Z)
| LogOpenDecoderFailed (i ret : Z)
| LogReadFrameFailed (ret : Z)          (* av_read_frame() failed *)
| LogSendPacketFailed (ret : Z)         (* avcodec_send_packet() failed *)
| LogReceiveFrameFailed (ret : Z).      (* avcodec_receive_frame() failed *)

(** What an observer of the worker sees, in the order it happens: the
    diagnostics, the frames handed to the consumer ([emit imageReady]) and
    the calls on the collaborators that matter for the protocol. *)
Inductive Event :=
| Log (m : LogMsg)
| ImageReady (img : Qt.QImage)
| AdbSend (w h : Z)                     (* the screenrecord command, size w x h *)
| AdbRead (len : Z)                     (* m_adb->read(buf, len) *)
| AvReadFrame (ret : Z)
| AvcodecSendPacket (ret : Z)
| AvcodecReceiveFrame (ret : Z)
| SwsScale
| AvPacketUnref
| Msleep (ms : Z).

(** The members of VideoThread, the two fields of FFmpeg objects that the
    file reads through them, the set of heap blocks that are allocated and
    not freed, the next unused block number, and the events so far. *)
Record State := mkState {
  m_imageWidth : Z;
  m_imageHeight : Z;
  m_nativeInterval : Z;
  m_videoMode : VideMode;
  m_swsContext : ptr;
  m_frame : ptr;
  m_rgbFrame : ptr;
  m_codecCtx : ptr;
  m_avFormat : ptr;
  rgb_data0 : ptr;                      (* m_rgbFrame->data[0] *)
  fmt_pb : ptr;                         (* m_avFormat->pb *)
  live : gset block;
  next : block;
  trace : list Event
}.

(** Assignment to one member; the others keep their values. *)
Definition set_m_swsContext (p : ptr) (s : State) : State :=
  let (w, h, ms, mode, _, frame, rgb, ctx, fmt, data0, pb, lv, nx, tr) := s in
  mkState w h ms mode p frame rgb ctx fmt data0 pb lv nx tr.

Definition set_m_frame (p : ptr) (s : State) : State :=
  let (w, h, ms, mode, sws, _, rgb, ctx, fmt, data0, pb, lv, nx, tr) := s in
  mkState w h ms mode sws p rgb ctx fmt data0 pb lv nx tr.

Definition set_m_rgbFrame (p : ptr) (s : State) : State :=
  let (w, h, ms, mode, sws, frame, _, ctx, fmt, data0, pb, lv, nx, tr) := s in
  mkState w h ms mode sws frame p ctx fmt data0 pb lv nx tr.

Definition set_m_codecCtx (p : ptr) (s : State) : State :=
  let (w, h, ms, mode, sws, frame, rgb, _, fmt, data0, pb, lv, nx, tr) := s in
  mkState w h ms mode sws frame rgb p fmt data0 pb lv nx tr.

Definition set_m_avFormat (p : ptr) (s : State) : State :=
  let (w, h, ms, mode, sws, frame, rgb, ctx, _, data0, pb, lv, nx, tr) := s in
  mkState w h ms mode sws frame rgb ctx p data0 pb lv nx tr.

Definition set_rgb_data0 (p : ptr) (s : State) : State :=
  let (w, h, ms, mode, sws, frame, rgb, ctx, fmt, _, pb, lv, nx, tr) := s in
  mkState w h ms mode sws frame rgb ctx fmt p pb lv nx tr.

Definition set_fmt_pb (p : ptr) (s : State) : State :=
  let (w, h, ms, mode, sws, frame, rgb, ctx, fmt, data0, _, lv, nx, tr) := s in
  mkState w h ms mode sws frame rgb ctx fmt data0 p lv nx tr.

Definition set_heap (l : gset block) (n : block) (s : State) : State :=
  let (w, h, ms, mode, sws, frame, rgb, ctx, fmt, data0, pb, _, _, tr) := s in
  mkState w h ms mode sws frame rgb ctx fmt data0 pb l n tr.

Definition set_trace (t : list Event) (s : State) : State :=
  let (w, h, ms, mode, sws, frame, rgb, ctx, fmt, data0, pb, lv, nx, _) := s in
  mkState w h ms mode sws frame rgb ctx fmt data0 pb lv nx t.

(** Modelled from the spec: the initial values of the members, which the
    missing header videothread.h gives (the constructor in the file sets
    none).  The spec's data model has the decoder context and the scaler
    absent before initialisation; every pointer starts as [nullptr]. *)
Definition new_thread (w h interval : Z) (mode : VideMode) : State :=
  mkState w h interval mode nullptr nullptr nullptr nullptr nullptr
    nullptr nullptr ∅ 1%positive [].

(** The frames among some events, oldest first. *)
Definition frames (t : list Event) : list Qt.QImage :=
  omap (fun e => match e with ImageReady img => Some img | _ => None end) t.

(** *** Faults, and the monad of the methods *)

(** The ways in which the worker can go wrong. *)
Inductive Fault :=
| NullDeref                             (* memory is accessed through a null pointer *)
| DoubleFree.                           (* a block that is not allocated is freed *)

Inductive Res (A : Type) :=
| Ok (a : A) (s : State)
| Crash (f : Fault) (s : State).
Arguments Ok {A} a s.
Arguments Crash {A} f s.

Definition M (A : Type) : Type := State -> Res A.

Definition ret {A} (a : A) : M A := fun s => Ok a s.

Definition bind {A B} (m : M A) (k : A -> M B) : M B :=
  fun s => match m s with
           | Ok a s' => k a s'
           | Crash f s' => Crash f s'
           end.

Notation "'let*' x ':=' m 'in' k" := (bind m (fun x => k))
  (at level 10, x name, m at level 100, k at level 200).
Notation "'exec' m ';' k" := (bind m (fun _ => k))
  (at level 10, m at level 100, k at level 200).

Definition get {A} (f : State -> A) : M A := fun s => Ok (f s) s.
Definition modify (f : State -> State) : M unit := fun s => Ok tt (f s).
Definition crash {A} (f : Fault) : M A := fun s => Crash f s.

Definition event (e : Event) : M unit :=
  modify (fun s => set_trace (trace s ++ [e]) s).

Definition qDebug (m : LogMsg) : M unit := event (Log m).

(** Allocation of a fresh block. *)
Definition alloc : M ptr :=
  fun s => Ok (Some (next s))
              (set_heap ({[ next s ]} ∪ live s) (Pos.succ (next s)) s).

(** An allocation that the script lets succeed or fail (NULL). *)
Definition alloc_if (ok : bool) : M ptr :=
  if ok then alloc else ret nullptr.

(** Freeing a block: nothing for NULL (every free function used here
    accepts it), a fault for a block that is not allocated. *)
Definition free (p : ptr) : M unit :=
  fun s =>
    match p with
    | None => Ok tt s
    | Some b =>
        if decide (b ∈ live s) then Ok tt (set_heap (live s ∖ {[ b ]}) (next s) s)
        else Crash DoubleFree s
    end.

(** Access to the memory [p] points to. *)
Definition deref (p : ptr) : M unit :=
  if is_null p then crash NullDeref else ret tt.

(** The FFmpeg functions that take the address of a pointer (av_frame_free,
    av_freep, avcodec_free_context, avformat_close_input): the block is
    freed and the pointer is set to NULL. *)
Definition free_and_null (rd : State -> ptr) (wr : ptr -> State -> State) : M unit :=
  let* p := get rd in
  exec free p;
  modify (wr nullptr).

(** Conversion of a 64-bit or unsigned value to [int]. *)
Definition to_int (z : Z) : Z := (z + 2 ^ 31) mod 2 ^ 32 - 2 ^ 31.

(** ** The scripts: what the collaborators answer *)

Module Adb.

(** One round of the wait loop of [read_packet]: the answers of the
    connection (and of the thread's interruption flag) in that round. *)
Record Poll := mkPoll {
  isConnected : bool;
  connectToDevice : bool;
  send : bool;
  waitForReadyRead : bool;
  isInterruptionRequested : bool;
  error : Qt.SocketError;
  bytesAvailable : Z
}.

(** One call of [read_packet]: the bytes buffered at the call, the rounds of
    the wait loop, and whether the final read succeeds. *)
Record Conn := mkConn {
  bytesAvailable0 : Z;
  polls : list Poll;
  read : bool
}.

End Adb.

(** The answers of FFmpeg during [h264Init]. *)
Record Probe := mkProbe {
  av_image_alloc_ok : bool;
  avformat_open_input : Z;
  avformat_find_stream_info : Z
}.

(** One entry of [m_avFormat->streams] and the answers of FFmpeg when the
    selection tries it. *)
Record Stream := mkStream {
  codec_type : AV.AVMediaType;          (* codecpar->codec_type *)
  avcodec_find_decoder : bool;          (* a decoder exists *)
  avcodec_alloc_context3 : bool;        (* the context was allocated *)
  avcodec_parameters_to_context : Z;
  ctx_codec_type : AV.AVMediaType;      (* m_codecCtx->codec_type *)
  avcodec_open2 : Z;
  sws_getContext : bool                 (* a scaler was created *)
}.

(** One iteration of the decode loop. *)
Record Iter := mkIter {
  interruption : bool;                  (* isInterruptionRequested() *)
  av_read_frame : Z;
  stream_index : Z;                     (* pkt.stream_index *)
  avcodec_send_packet : Z;
  avcodec_receive_frame : list Z        (* one answer per call *)
}.

(** One iteration of the snapshot loop. *)
Record Shot := mkShot {
  shot_interruption : bool;             (* isInterruptionRequested() *)
  isScreenAwake : bool;
  fetchScreenJpeg : Qt.QImage;
  fetchScreenRaw : Qt.QImage;
  fetchScreenPng : Qt.QImage
}.

Record World := mkWorld {
  probe : Probe;
  streams : list Stream;
  iters : list Iter;
  shots : list Shot
}.

(** ** VideoThread::h264Connect *)

Definition h264Connect (p : Adb.Poll) : M bool :=
  if negb (Adb.connectToDevice p) then ret false
  else
    let* w := get m_imageWidth in
    let* h := get m_imageHeight in
    exec event (AdbSend w h);
    if negb (Adb.send p) then
      exec qDebug LogExecFailed;
      ret false
    else
      exec qDebug LogConnected;
      ret true.

(** ** The byte source: the lambda [read_packet] of h264Init *)

(** How the wait loop [while (len == 0)] ends. *)
Inductive Waited :=
| Got (len : Z)                         (* the loop is left with len bytes available *)
| Return (r : Z)                        (* a return statement inside the loop *)
| Blocked.                              (* still waiting when the script ends *)

Fixpoint wait_loop (ps : list Adb.Poll) : M Waited :=
  match ps with
  | [] => ret Blocked
  | p :: rest =>
      let* up := (if Adb.isConnected p then ret true else h264Connect p) in
      if negb up then ret (Return (-1))
      else
        let res := Adb.waitForReadyRead p in
        if Adb.isInterruptionRequested p then ret (Return (-1))
        else if negb res then
          let err := Adb.error p in
          if Qt.is_remote_closed err then
            exec qDebug (LogHostDisconnected err);
            ret (Return (-1))
          else if negb (Qt.is_timeout err) then
            exec qDebug (LogSocketReadFailed err);
            ret (Return (-1))
          else wait_loop rest
        else
          let len := Adb.bytesAvailable p in
          if len =? 0 then wait_loop rest else ret (Got len)
  end.

(** The result is [Some r] when the callback returns [r], and [None] when
    it is still in its wait loop at the end of the script. *)
Definition read_packet (c : Adb.Conn) (buf_size : Z) : M (option Z) :=
  let len := Adb.bytesAvailable0 c in
  let* w := (if len =? 0 then wait_loop (Adb.polls c) else ret (Got len)) in
  match w with
  | Blocked => ret None
  | Return r => ret (Some r)
  | Got len =>
      let len := if len >? buf_size then buf_size else len in
      exec event (AdbRead len);
      if negb (Adb.read c) then ret (Some (-1))
      else ret (Some (to_int len))
  end.

(** How libavformat's I/O layer reads the value a read callback returns
    (aviobuf.c, fill_buffer): AVERROR_EOF is the end of the input, any other
    negative value is an error that is kept and reported, the rest is a
    count of bytes. *)
Inductive Filled :=
| Bytes (n : Z)
| EndOfInput
| Fatal (code : Z).

Definition classify_fill (r : Z) : Filled :=
  if r =? AV.AVERROR_EOF then EndOfInput
  else if r <? 0 then Fatal r
  else Bytes r.

(** ** VideoThread::h264Init *)

(** The allocations that the code asserts to succeed (Q_ASSERT) succeed;
    av_image_alloc, whose result the code ignores, and the two calls that
    open and analyse the input answer as the script says.  A scripted call
    of the demuxer (here, and av_read_frame in the decode loop) stands for
    the whole call: the reads that FFmpeg makes through the byte source
    while it runs are [read_packet] above, and their events (commands
    sent, reads, connection diagnostics) are not added to the trace of
    [h264Loop]. *)
Definition h264Init (p : Probe) : M bool :=
  let* buf := alloc in                                  (* av_malloc(bufSize) *)
  let* fmt := alloc in                                  (* avformat_alloc_context *)
  exec modify (set_m_avFormat fmt);
  let* pb := alloc in                                   (* avio_alloc_context(buf, ...) *)
  exec modify (set_fmt_pb pb);
  let* f := alloc in                                    (* av_frame_alloc *)
  exec modify (set_m_frame f);
  let* rgb := alloc in                                  (* av_frame_alloc *)
  exec modify (set_m_rgbFrame rgb);
  let* data := alloc_if (av_image_alloc_ok p) in        (* av_image_alloc *)
  exec modify (set_rgb_data0 data);
  let ret1 := avformat_open_input p in
  if ret1 <? 0 then
    (* on failure avformat_open_input frees the context it was given and
       sets the caller's pointer to NULL; the custom I/O context stays *)
    exec free_and_null m_avFormat set_m_avFormat;
    exec qDebug (LogOpenInputFailed ret1);
    ret false
  else
    let ret2 := avformat_find_stream_info p in
    if ret2 <? 0 then
      exec qDebug (LogStreamInfoFailed ret2);
      ret false
    else ret true.

(** ** VideoThread::h264VideoStreamIndex *)

(** The body of the loop for stream [i]; the result is the new value of
    [streamIndex]. *)
Definition try_stream (i : Z) (st : Stream) (streamIndex : Z) : M Z :=
  if negb (AV.is_video (codec_type st)) then ret streamIndex
  else if negb (avcodec_find_decoder st) then
    exec qDebug (LogNoDecoder i);
    ret streamIndex
  else
    let* ctx := alloc_if (avcodec_alloc_context3 st) in
    exec modify (set_m_codecCtx ctx);
    if is_null ctx then
      exec qDebug (LogCtxAllocFailed i);
      ret streamIndex
    else
      let ret1 := avcodec_parameters_to_context st in
      if ret1 <? 0 then
        exec qDebug (LogParamsFailed i ret1);
        exec free_and_null m_codecCtx set_m_codecCtx;
        ret streamIndex
      else if negb (AV.is_video (ctx_codec_type st)) then
        exec free_and_null m_codecCtx set_m_codecCtx;
        ret streamIndex
      else
        let ret2 := avcodec_open2 st in
        if ret2 <? 0 then
          exec qDebug (LogOpenDecoderFailed i ret2);
          exec free_and_null m_codecCtx set_m_codecCtx;
          ret streamIndex
        else
          let* sws := alloc_if (sws_getContext st) in
          exec modify (set_m_swsContext sws);
          ret (to_int i).

Fixpoint stream_loop (i : Z) (ss : list Stream) (streamIndex : Z) : M Z :=
  match ss with
  | [] => ret streamIndex
  | st :: rest =>
      let* idx := try_stream i st streamIndex in
      stream_loop (i + 1) rest idx
  end.

Definition h264VideoStreamIndex (ss : list Stream) : M Z :=
  stream_loop 0 ss (-1).

(** ** VideoThread::h264Exit *)

Definition h264Exit : M unit :=
  let* sws := get m_swsContext in
  (* sws_freeContext takes the pointer by value: m_swsContext keeps it *)
  exec (if is_null sws then ret tt else free sws);
  exec free_and_null m_frame set_m_frame;               (* av_frame_free(&m_frame) *)
  let* rgb := get m_rgbFrame in
  exec deref rgb;                                       (* m_rgbFrame->data[0] *)
  exec free_and_null rgb_data0 set_rgb_data0;           (* av_freep *)
  exec free_and_null m_rgbFrame set_m_rgbFrame;         (* av_frame_free(&m_rgbFrame) *)
  let* ctx := get m_codecCtx in
  exec (if is_null ctx then ret tt
        else free_and_null m_codecCtx set_m_codecCtx);  (* avcodec_free_context *)
  let* fmt := get m_avFormat in
  if is_null fmt then ret tt
  else
    let* ioContext := get fmt_pb in
    exec free_and_null m_avFormat set_m_avFormat;       (* avformat_close_input *)
    free ioContext.                                     (* avio_context_free(&ioContext) *)

(** ** VideoThread::h264Loop *)

Definition is_drain_signal (ret : Z) : bool :=
  (ret =? AV.AVERROR AV.EAGAIN) || (ret =? AV.AVERROR_EOF).

(** The rows of the picture are copied with memcpy from
    [m_rgbFrame->data[0]]: bytes are read through that pointer when the
    image has rows, that is, when it is not null. *)
Definition copy_rows (img : Qt.QImage) : M unit :=
  let* data := get rgb_data0 in
  if Qt.isNull img then ret tt else deref data.

(** The inner loop [while (ret >= 0)] over the answers of
    avcodec_receive_frame; [res] is the flag of the same name.  The result
    is [None] when the answers end before the loop does.  A frame that
    avcodec_receive_frame gives came out of the decoder context into
    [m_frame]; sws_scale then works through the scaler, the planes of
    [m_frame] and the planes of [m_rgbFrame].  The code tests none of
    these pointers. *)
Fixpoint receive_loop (answers : list Z) (res : bool) : M (option bool) :=
  match answers with
  | [] => ret None
  | r :: rest =>
      exec event (AvcodecReceiveFrame r);
      if is_drain_signal r then ret (Some res)
      else if r <? 0 then
        exec qDebug (LogReceiveFrameFailed r);
        ret (Some res)
      else
        let* ctx := get m_codecCtx in
        exec deref ctx;                                 (* a frame of m_codecCtx *)
        let* frame := get m_frame in
        exec deref frame;                               (*   in m_frame *)
        let* sws := get m_swsContext in
        exec deref sws;                                 (* sws_scale(m_swsContext, *)
        let* rgb := get m_rgbFrame in                   (*   m_frame->data, ..., *)
        exec deref rgb;                                 (*   m_rgbFrame->data, ...) *)
        exec event SwsScale;
        let* w := get m_imageWidth in
        let* h := get m_imageHeight in
        let img := Qt.new_image w h Qt.Format_RGB888 in
        exec copy_rows img;
        exec event (ImageReady (Qt.with_picture img));
        receive_loop rest true
  end.

(** The loop [while (!isInterruptionRequested())].  The result is
    [Some res] when the loop is left, with the value of [res] at that
    moment, and [None] when the script ends first.  The answer of
    avcodec_send_packet, and an answer of avcodec_receive_frame that gives
    no frame, are taken as the script has them; they are answers of calls
    that return, which FFmpeg's do on a decoder context that exists, and
    the properties that state that a run returns are stated for sessions
    that have one ([decoder_ready], [equipped]). *)
Fixpoint decode_loop (streamIndex : Z) (its : list Iter) (res : bool)
  : M (option bool) :=
  match its with
  | [] => ret None
  | it :: rest =>
      if interruption it then ret (Some res)
      else
        let ret1 := av_read_frame it in
        exec event (AvReadFrame ret1);
        let drainDecoder := is_drain_signal ret1 in
        if (ret1 <? 0) && negb drainDecoder then
          exec qDebug (LogReadFrameFailed ret1);
          ret (Some res)
        else if (stream_index it =? streamIndex) || drainDecoder then
          let ret2 := avcodec_send_packet it in
          exec event (AvcodecSendPacket ret2);
          if ret2 <? 0 then
            if negb (ret2 =? AV.AVERROR AV.EAGAIN) then
              exec qDebug (LogSendPacketFailed ret2);
              ret (Some res)
            else decode_loop streamIndex rest res       (* continue *)
          else
            let* drained := receive_loop (avcodec_receive_frame it) res in
            match drained with
            | None => ret None
            | Some res' =>
                exec event AvPacketUnref;
                if drainDecoder then ret (Some res')
                else decode_loop streamIndex rest res'
            end
        else
          exec event AvPacketUnref;
          if drainDecoder then ret (Some res)
          else decode_loop streamIndex rest res
  end.

Definition h264Loop (w : World) : M (option bool) :=
  let* ok := h264Init (probe w) in
  if negb ok then
    exec h264Exit;
    ret (Some false)
  else
    let* streamIndex := h264VideoStreamIndex (streams w) in
    if streamIndex =? -1 then
      exec h264Exit;
      ret (Some false)
    else
      let* left := decode_loop streamIndex (iters w) false in
      match left with
      | None => ret None
      | Some res =>
          exec h264Exit;
          ret (Some res)
      end.

(** ** VideoThread::nativeLoop *)

(** The result is [Some tt] when the loop returns and [None] when the
    script ends first. *)
Fixpoint nativeLoop (shs : list Shot) : M (option unit) :=
  match shs with
  | [] => ret None
  | sh :: rest =>
      if shot_interruption sh then ret (Some tt)
      else
        let* w := get m_imageWidth in
        let* h := get m_imageHeight in
        let* mode := get m_videoMode in
        let* interval := get m_nativeInterval in
        let deliver (img : Qt.QImage) : M (option unit) :=
          exec event (ImageReady (Qt.scaledToWidth w img));
          exec event (Msleep interval);
          nativeLoop rest in
        if isScreenAwake sh then
          match mode with
          | NativeJpg => deliver (fetchScreenJpeg sh)
          | NativeRaw => deliver (fetchScreenRaw sh)
          | NativePng => deliver (fetchScreenPng sh)
          | _ => ret (Some tt)
          end
        else
          deliver (Qt.fill Qt.black (Qt.new_image w h Qt.Format_RGB888))
  end.

(** ** VideoThread::run *)

(** The loop that the configured mode selects; closing the connection
    afterwards leaves no trace in this model. *)
Definition run (w : World) : M (option unit) :=
  let* mode := get m_videoMode in
  match mode with
  | FastH264 =>
      let* r := h264Loop w in
      ret (match r with Some _ => Some tt | None => None end)
  | _ => nativeLoop (shots w)
  end.

(** ** What the properties are stated with *)

(** [after s new] is the state [s] once the events [new] have happened. *)
Definition after (s : State) (new : list Event) : State :=
  set_trace (trace s ++ new) s.

Definition is_frame (e : Event) : bool :=
  match e with ImageReady _ => true | _ => false end.

(** The configuration of a session, which no method changes. *)
Definition config (s : State) : Z * Z * Z * VideMode :=
  (m_imageWidth s, m_imageHeight s, m_nativeInterval s, m_videoMode s).

(** A computation is silent when it keeps the configuration and hands no
    frame to the consumer. *)
Definition silent {A} (m : M A) : Prop :=
  forall s a s', m s = Ok a s' ->
    config s' = config s /\
    exists new, trace s' = trace s ++ new /\ frames new = [].

(** *** The heap of a session *)

(** The block a pointer holds is allocated. *)
Definition alive (s : State) (p : ptr) : Prop :=
  match p with Some b => b ∈ live s | None => True end.

(** [p] was allocated before [q], when both hold a block. *)
Definition before (p q : ptr) : Prop :=
  match p, q with Some a, Some b => (a < b)%positive | _, _ => True end.

(** No session is open: no scaler and no decoder context are recorded,
    and the blocks in use are older than the next one. *)
Definition idle (s : State) : Prop :=
  (forall b, b ∈ live s -> (b < next s)%positive) /\
  m_swsContext s = None /\ m_codecCtx s = None.

(** The state of an open session, between h264Init and h264Exit: every
    pointer the teardown frees is NULL or holds an allocated block, the two
    frames and the I/O context exist, and the blocks were allocated in the
    order in which the code creates them, so that no two pointers share
    one. *)
Definition session_ok (s : State) : Prop :=
  (forall b, b ∈ live s -> (b < next s)%positive) /\
  (alive s (m_swsContext s) /\ alive s (m_frame s) /\ alive s (rgb_data0 s) /\
   alive s (m_rgbFrame s) /\ alive s (m_codecCtx s) /\ alive s (m_avFormat s) /\
   alive s (fmt_pb s)) /\
  (m_frame s <> None /\ m_rgbFrame s <> None /\ fmt_pb s <> None) /\
  (before (m_avFormat s) (fmt_pb s) /\ before (fmt_pb s) (m_frame s) /\
   before (m_frame s) (m_rgbFrame s) /\ before (m_rgbFrame s) (rgb_data0 s) /\
   before (m_rgbFrame s) (m_codecCtx s) /\ before (m_rgbFrame s) (m_swsContext s) /\
   before (rgb_data0 s) (m_codecCtx s) /\ before (rgb_data0 s) (m_swsContext s) /\
   before (m_codecCtx s) (m_swsContext s)).

(** What the teardown leaves: the pointers that FFmpeg resets are NULL. *)
Definition torn_down (s : State) : Prop :=
  m_frame s = None /\ m_rgbFrame s = None /\ rgb_data0 s = None /\
  m_codecCtx s = None /\ m_avFormat s = None.

(** *** The decode loop *)

(** The image that the decode loop emits for a decoded frame. *)
Definition decoded_frame (s : State) : Qt.QImage :=
  Qt.with_picture (Qt.new_image (m_imageWidth s) (m_imageHeight s) Qt.Format_RGB888).

(** The answers of avcodec_receive_frame let the inner loop end. *)
Definition drain_ends (answers : list Z) : Prop := Exists (fun a => a < 0) answers.

(** The script lets the decode loop end: an iteration finds the
    interruption flag set, and every drain pass ends. *)
Definition loop_ends (its : list Iter) : Prop :=
  Exists (fun it => interruption it = true) its /\
  Forall (fun it => drain_ends (avcodec_receive_frame it)) its.

(** *** Stream selection *)

(** The stream is a video stream whose decoder is found, allocated,
    configured and opened: every step of the loop body succeeds. *)
Definition opens (st : Stream) : bool :=
  AV.is_video (codec_type st) && avcodec_find_decoder st
  && avcodec_alloc_context3 st
  && (0 <=? avcodec_parameters_to_context st)
  && AV.is_video (ctx_codec_type st)
  && (0 <=? avcodec_open2 st).

(** *** The byte source *)

(** A round of the wait loop in which nothing arrives and nothing fails:
    the connection is up, the thread is not interrupted, and the wait
    either times out or reports readiness with no byte to read. *)
Definition still_waiting (p : Adb.Poll) : Prop :=
  Adb.isConnected p = true /\ Adb.isInterruptionRequested p = false /\
  ((Adb.waitForReadyRead p = false /\ Adb.error p = Qt.SocketTimeoutError) \/
   (Adb.waitForReadyRead p = true /\ Adb.bytesAvailable p = 0)).

(** The diagnostic that the wait loop writes for a socket error. *)
Definition socket_diagnostic (e : Qt.SocketError) : LogMsg :=
  if Qt.is_remote_closed e then LogHostDisconnected e else LogSocketReadFailed e.

(** *** The snapshot loop *)

(** The frame that the snapshot loop makes while the display is off. *)
Definition placeholder (s : State) : Qt.QImage :=
  Qt.mkQImage (m_imageWidth s) (m_imageHeight s) Qt.Format_RGB888 (Qt.Solid Qt.black).

(** An iteration that finds the thread running and the display off. *)
Definition asleep (sh : Shot) : Prop :=
  shot_interruption sh = false /\ isScreenAwake sh = false.

(** The events of [n] rounds with the display off. *)
Definition placeholder_rounds (s : State) (n : nat) : list Event :=
  concat (replicate n [ImageReady (placeholder s); Msleep (m_nativeInterval s)]).

(** ** Concrete scripts *)

Definition state_of {A} (r : Res A) : State :=
  match r with Ok _ s => s | Crash _ s => s end.

(** A worker configured for 480 x 800 in the compressed-stream mode. *)
Definition s0 : State := new_thread 480 800 100 FastH264.

Definition stream_video : Stream :=
  mkStream AV.AVMEDIA_TYPE_VIDEO true true 0 AV.AVMEDIA_TYPE_VIDEO 0 true.
Definition stream_audio : Stream :=
  mkStream AV.AVMEDIA_TYPE_AUDIO true true 0 AV.AVMEDIA_TYPE_AUDIO 0 true.
(** A video stream whose decoder does not open (AVERROR(EINVAL)). *)
Definition stream_unopened : Stream :=
  mkStream AV.AVMEDIA_TYPE_VIDEO true true 0 AV.AVMEDIA_TYPE_VIDEO (-22) true.
Definition streams3 : list Stream :=
  [stream_video; stream_audio; stream_video; stream_unopened].

Definition probe_ok : Probe := mkProbe true 0 0.

(** A packet of stream 0 that decodes to one frame. *)
Definition iter_frame : Iter := mkIter false 0 0 0 [0; AV.AVERROR AV.EAGAIN].
(** The end of the input, with nothing left in the decoder. *)
Definition iter_eof : Iter := mkIter false AV.AVERROR_EOF 0 0 [AV.AVERROR_EOF].
(** The demuxer has no packet yet; the decoder has nothing buffered. *)
Definition iter_starved : Iter :=
  mkIter false (AV.AVERROR AV.EAGAIN) 0 0 [AV.AVERROR AV.EAGAIN].
(** A packet of stream 0 that the decoder refuses for now. *)
Definition iter_refused : Iter := mkIter false 0 0 (AV.AVERROR AV.EAGAIN) [].
(** The read fails with the value the byte source returns on failure. *)
Definition iter_read_failed : Iter := mkIter false (-1) 0 0 [].
Definition iter_interrupted : Iter := mkIter true 0 0 0 [].

(** One frame, then the end of the input. *)
Definition world1 : World :=
  mkWorld probe_ok [stream_video] [iter_frame; iter_eof; iter_interrupted] [].
(** The interruption flag is set when the loop is entered. *)
Definition world_interrupted : World :=
  mkWorld probe_ok [stream_video] [iter_interrupted; iter_frame] [].
(** avformat_open_input fails. *)
Definition world_probe_fails : World :=
  mkWorld (mkProbe true (-1) 0) [] [] [].

Definition poll_error (e : Qt.SocketError) : Adb.Poll :=
  Adb.mkPoll true true true false false e 0.
Definition poll_data (n : Z) : Adb.Poll :=
  Adb.mkPoll true true true true false Qt.SocketTimeoutError n.

(** A time-out, then the device closes the connection. *)
Definition conn_closed : Adb.Conn :=
  Adb.mkConn 0 [poll_error Qt.SocketTimeoutError; poll_error Qt.RemoteHostClosedError] true.
(** A time-out, then another socket error. *)
Definition conn_refused : Adb.Conn :=
  Adb.mkConn 0 [poll_error Qt.SocketTimeoutError; poll_error Qt.ConnectionRefusedError] true.
(** A time-out, then 10000 bytes arrive. *)
Definition conn_data : Adb.Conn :=
  Adb.mkConn 0 [poll_error Qt.SocketTimeoutError; poll_data 10000] true.

(** The worker after h264Init and h264VideoStreamIndex on one video
    stream, and after the h264Exit that follows. *)
Definition session1 : State :=
  state_of ((exec h264Init probe_ok; h264VideoStreamIndex [stream_video]) s0).
Definition closed1 : State := state_of (h264Exit session1).

(** A worker configured for 50 x 80 in a snapshot mode, and a device whose
    screenshots are 100 x 100. *)
Definition snapshot_thread : State := new_thread 50 80 100 NativePng.
Definition screenshot : Qt.QImage := Qt.mkQImage 100 100 Qt.Format_RGB32 Qt.Picture.
Definition shot_awake : Shot := mkShot false true screenshot screenshot screenshot.
Definition shot_asleep : Shot :=
  mkShot false false Qt.null_image Qt.null_image Qt.null_image.
Definition shot_interrupted : Shot := mkShot true true screenshot screenshot screenshot.

(** ** What the further properties are stated with *)

(** The events of the device connection and the diagnostics. *)
Definition is_connection_event (e : Event) : bool :=
  match e with Log _ | AdbSend _ _ | AdbRead _ => true | _ => false end.

(** The events of the snapshot loop: a frame, a sleep. *)
Definition is_round_event (e : Event) : bool :=
  match e with ImageReady _ | Msleep _ => true | _ => false end.

(** The selection gets as far as allocating a decoder context for the
    stream: it is a video stream and a decoder for it exists. *)
Definition tried (st : Stream) : bool :=
  AV.is_video (codec_type st) && avcodec_find_decoder st.

(** A call of avcodec_receive_frame that gave a frame. *)
Definition is_received (e : Event) : bool :=
  match e with AvcodecReceiveFrame r => 0 <=? r | _ => false end.

Definition is_scaled (e : Event) : bool :=
  match e with SwsScale => true | _ => false end.

(** How many events of a kind there are among some events. *)
Definition count (kind : Event -> bool) (t : list Event) : nat :=
  length (List.filter kind t).

(** The screenshot that the mode asks the device for. *)
Definition fetch_of (mode : VideMode) (sh : Shot) : Qt.QImage :=
  match mode with
  | NativeJpg => fetchScreenJpeg sh
  | NativeRaw => fetchScreenRaw sh
  | NativePng => fetchScreenPng sh
  | FastH264 => Qt.null_image
  end.


(** The frame of one iteration of the snapshot loop: the screenshot of the
    mode when the display is on, the black image when it is off, scaled to
    the configured width. *)
Definition round_frame (s : State) (sh : Shot) : Qt.QImage :=
  Qt.scaledToWidth (m_imageWidth s)
    (if isScreenAwake sh then fetch_of (m_videoMode s) sh
     else Qt.fill Qt.black
            (Qt.new_image (m_imageWidth s) (m_imageHeight s) Qt.Format_RGB888)).

(** The events of the rounds that emitted the frames [imgs]. *)
Definition rounds_of (interval : Z) (imgs : list Qt.QImage) : list Event :=
  concat (map (fun img => [ImageReady img; Msleep interval]) imgs).

Definition is_log (e : Event) : bool :=
  match e with Log _ => true | _ => false end.

(** A computation adds only events of one kind to the trace. *)
Definition only (kind : Event -> bool) {A} (m : M A) : Prop :=
  forall s a s', m s = Ok a s' ->
    exists new, trace s' = trace s ++ new /\ Forall (fun e => kind e = true) new.

(** *** What the decode loop works with *)

(** The pointer holds a block that is allocated. *)
Definition usable (s : State) (p : ptr) : Prop :=
  exists b, p = Some b /\ b ∈ live s.

(** The session has everything that the decode loop uses without a test:
    the decoder context, the scaler, both frames and the RGB picture. *)
Definition decoder_ready (s : State) : Prop :=
  usable s (m_codecCtx s) /\ usable s (m_swsContext s) /\
  usable s (m_frame s) /\ usable s (m_rgbFrame s) /\ usable s (rgb_data0 s).

(** What a decoded frame needs in the model of the drain loop: the
    decoder context, the scaler and both frames are not NULL, and the RGB
    picture is not NULL unless the image has no rows to copy. *)
Definition frame_ready (s : State) : bool :=
  negb (is_null (m_codecCtx s)) && negb (is_null (m_swsContext s)) &&
  negb (is_null (m_frame s)) && negb (is_null (m_rgbFrame s)) &&
  (Qt.isNull (Qt.new_image (m_imageWidth s) (m_imageHeight s) Qt.Format_RGB888)
   || negb (is_null (rgb_data0 s))).

(** The last stream for which the selection allocates a decoder context. *)
Fixpoint last_tried (ss : list Stream) : option Stream :=
  match ss with
  | [] => None
  | st :: rest =>
      match last_tried rest with
      | Some x => Some x
      | None => if tried st then Some st else None
      end
  end.

(** FFmpeg equips the session: av_image_alloc succeeds, and the last video
    stream that has a decoder, if there is one, opens and gets a scaler. *)
Definition equipped (w : World) : bool :=
  av_image_alloc_ok (probe w) &&
  match last_tried (streams w) with
  | Some st => opens st && sws_getContext st
  | None => true
  end.

(** ** Further concrete scripts *)

(** 20000 bytes are buffered when the callback is called. *)
Definition conn_ready : Adb.Conn := Adb.mkConn 20000 [] true.
(** A time-out, then 500 bytes are ready and the interruption flag is set. *)
Definition poll_interrupted : Adb.Poll :=
  Adb.mkPoll true true true true true Qt.SocketTimeoutError 500.
Definition conn_interrupted : Adb.Conn :=
  Adb.mkConn 0 [poll_error Qt.SocketTimeoutError; poll_interrupted] true.
(** A time-out, then the connection is down: the device is reached again
    and refuses the command. *)
Definition poll_down : Adb.Poll :=
  Adb.mkPoll false true false false false Qt.SocketTimeoutError 0.
Definition conn_down : Adb.Conn :=
  Adb.mkConn 0 [poll_error Qt.SocketTimeoutError; poll_down] true.

(** No stream opens. *)
Definition world_no_stream : World :=
  mkWorld probe_ok [stream_audio; stream_unopened] [iter_frame] [].

(** avcodec_receive_frame fails (AVERROR(EINVAL)). *)
Definition iter_decode_error : Iter := mkIter false 0 0 0 [-22].
(** avcodec_send_packet fails (AVERROR(EINVAL)). *)
Definition iter_send_failed : Iter := mkIter false 0 0 (-22) [].
(** A packet of stream 1. *)
Definition iter_other_stream : Iter := mkIter false 0 1 0 [].

(** The display is on and the fetch fails. *)
Definition shot_fetch_failed : Shot :=
  mkShot false true Qt.null_image Qt.null_image Qt.null_image.

(** The interruption flag is found set; the decoder would have nothing
    buffered. *)
Definition iter_stop : Iter := mkIter true 0 0 0 [AV.AVERROR AV.EAGAIN].
(** One frame, then the interruption. *)
Definition world_stopped : World :=
  mkWorld probe_ok [stream_video] [iter_frame; iter_stop] [].
(** av_image_alloc fails, and a frame is decoded. *)
Definition world_no_picture : World :=
  mkWorld (mkProbe false 0 0) [stream_video] [iter_frame; iter_eof] [].
(** The selected stream has no scaler, and a frame is decoded. *)
Definition stream_unscaled : Stream :=
  mkStream AV.AVMEDIA_TYPE_VIDEO true true 0 AV.AVMEDIA_TYPE_VIDEO 0 false.
Definition world_no_scaler : World :=
  mkWorld probe_ok [stream_unscaled] [iter_frame; iter_eof] [].
(** The first stream opens, the second is a video stream whose decoder
    does not open. *)
Definition world_no_decoder : World :=
  mkWorld probe_ok [stream_video; stream_unopened] [iter_frame; iter_eof] [].

(** * Proofs *)

(** ** Tactics and lemmas *)

(** *** Running the methods *)

Ltac unfold_m :=
  unfold free_and_null, alloc_if, alloc, qDebug, event, modify, get, crash, deref,
    bind, ret in *.

Ltac hsimpl := cbn -[union difference singleton elem_of decide] in *.

(** *** The heap of a session *)

(** Membership of a block in a heap built from unions and differences. *)
Ltac mem :=
  repeat match goal with
         | |- _ ∈ _ ∖ _ => apply elem_of_difference; split
         | |- _ ∉ {[ _ ]} => apply not_elem_of_singleton; lia
         | |- ?x ∈ {[ ?x ]} ∪ _ => apply elem_of_union_l, elem_of_singleton; reflexivity
         | |- _ ∈ {[ _ ]} ∪ _ => apply elem_of_union_r
         | |- _ ∈ _ => assumption
         end.

(** Every block of the heap is below the next block number. *)
Ltac fresh_heap H :=
  let b := fresh "b" in
  let Hb := fresh "Hb" in
  intros b Hb;
  repeat match goal with
         | Hx : _ ∈ _ ∖ _ |- _ => apply elem_of_difference in Hx; destruct Hx as [Hx _]
         | Hx : _ ∈ _ ∪ _ |- _ => apply elem_of_union in Hx; destruct Hx as [Hx|Hx]
         | Hx : _ ∈ {[ _ ]} |- _ => apply elem_of_singleton in Hx; subst
         end;
  try lia;
  match goal with Hx : _ ∈ _ |- _ => specialize (H _ Hx); lia end.

(** The frees of allocated blocks succeed. *)
Ltac free_ok :=
  hsimpl;
  repeat (match goal with
          | |- context [@decide ?P ?d] =>
              let Hn := fresh "Hn" in
              destruct (@decide P d) as [_|Hn]; [|exfalso; apply Hn; clear Hn; mem; fail]
          end; hsimpl).

(** h264Init opens a session, whatever FFmpeg answers. *)
Lemma h264Init_ok p s :
  idle s -> exists b s', h264Init p s = Ok b s' /\ session_ok s'.
Proof.
  intros (Hfresh & Hsws & Hctx). destruct s; hsimpl. subst.
  unfold h264Init. unfold_m. unfold free. hsimpl.
  destruct (av_image_alloc_ok p); hsimpl;
  destruct (avformat_open_input p <? 0); hsimpl.
  all: free_ok; hsimpl.
  all: try (destruct (avformat_find_stream_info p <? 0); hsimpl).
  all: eexists _, _; (split; [reflexivity|]).
  all: unfold session_ok, alive, before; hsimpl.
  all: split; [fresh_heap Hfresh|].
  all: split; [repeat split; try exact I; mem|].
  all: split; [repeat split; discriminate|].
  all: repeat split; try exact I; lia.
Qed.

(** The bounds that the freshness of the heap gives for the live blocks. *)
Ltac bounds H :=
  repeat match goal with
         | Hx : ?b ∈ _ |- _ =>
             lazymatch goal with
             | _ : (b < _)%positive |- _ => fail
             | _ => pose proof (H b Hx)
             end
         end.

Ltac split_session s :=
  let Hfresh := fresh "Hfresh" in
  intros (Hfresh & Halive & Hpresent & Horder);
  destruct s as [w h ms mode sws frame rgb ctx fmt data0 pb lv nx tr];
  unfold alive, before in *; hsimpl;
  destruct Halive as (? & ? & ? & ? & ? & ? & ?);
  destruct Hpresent as (? & ? & ?);
  destruct Horder as (? & ? & ? & ? & ? & ? & ? & ? & ?);
  destruct frame as [frame|]; [|congruence];
  destruct rgb as [rgb|]; [|congruence];
  destruct pb as [pb|]; [|congruence];
  destruct sws as [sws|], ctx as [ctx|], fmt as [fmt|], data0 as [data0|];
  bounds Hfresh.

Ltac session_goal H :=
  unfold session_ok, alive, before; hsimpl;
  split; [fresh_heap H|];
  split; [repeat split; try exact I; mem|];
  split; [repeat split; discriminate|];
  repeat split; try exact I; lia.

(** The stream selection keeps the session well formed; the contexts and
    scalers of streams it replaced stay allocated. *)
Lemma try_stream_ok i st idx s :
  session_ok s ->
  exists idx' s', try_stream i st idx s = Ok idx' s' /\ session_ok s'.
Proof.
  split_session s.
  all: unfold try_stream; unfold_m; unfold free; hsimpl.
  all: destruct (AV.is_video (codec_type st)); hsimpl;
    [destruct (avcodec_find_decoder st); hsimpl;
     [destruct (avcodec_alloc_context3 st); hsimpl;
      [destruct (avcodec_parameters_to_context st <? 0); hsimpl;
       [|destruct (AV.is_video (ctx_codec_type st)); hsimpl;
         [destruct (avcodec_open2 st <? 0); hsimpl;
          [|destruct (sws_getContext st); hsimpl]|]]|]|]|].
  all: free_ok; hsimpl.
  all: eexists _, _; (split; [reflexivity|]).
  all: session_goal Hfresh.
Qed.

Lemma stream_loop_ok ss : forall i idx s,
  session_ok s ->
  exists idx' s', stream_loop i ss idx s = Ok idx' s' /\ session_ok s'.
Proof.
  induction ss as [|st rest IH]; intros i idx s Hs; simpl.
  - exists idx, s. split; [reflexivity|exact Hs].
  - destruct (try_stream_ok i st idx s Hs) as (idx1 & s1 & Hrun & Hs1).
    unfold bind at 1. rewrite Hrun. apply IH. exact Hs1.
Qed.

(** The teardown of an open session completes, with or without a decoder
    context and a scaler. *)
Lemma h264Exit_ok s :
  session_ok s ->
  exists s', h264Exit s = Ok tt s' /\ torn_down s' /\ trace s' = trace s.
Proof.
  split_session s.
  all: unfold h264Exit; unfold_m; unfold free; hsimpl.
  all: free_ok; hsimpl.
  all: eexists; (split; [reflexivity|]).
  all: unfold torn_down; hsimpl; repeat split; reflexivity.
Qed.

(** *** Events *)

Lemma frames_app t1 t2 : frames (t1 ++ t2) = frames t1 ++ frames t2.
Proof. unfold frames. apply omap_app. Qed.

Lemma after_after s n1 n2 : after (after s n1) n2 = after s (n1 ++ n2).
Proof. destruct s. unfold after; simpl. rewrite <- app_assoc. reflexivity. Qed.

Lemma after_nil s : after s [] = s.
Proof. destruct s. unfold after; simpl. rewrite app_nil_r. reflexivity. Qed.

Lemma trace_after s new : trace (after s new) = trace s ++ new.
Proof. destruct s. reflexivity. Qed.

Lemma decoded_frame_after s new : decoded_frame (after s new) = decoded_frame s.
Proof. destruct s. reflexivity. Qed.

Lemma bind_event {A} e (k : M A) s : (exec event e; k) s = k (after s [e]).
Proof. reflexivity. Qed.

Lemma bind_qDebug {A} m (k : M A) s : (exec qDebug m; k) s = k (after s [Log m]).
Proof. reflexivity. Qed.

Lemma bind_get {A B} (f : State -> A) (k : A -> M B) s :
  (let* x := get f in k x) s = k (f s) s.
Proof. reflexivity. Qed.

(** *** The two loops of h264Loop *)

Lemma drain_signal_negative a : is_drain_signal a = true -> a < 0.
Proof.
  unfold is_drain_signal. intros H. apply orb_true_iff in H.
  destruct H as [H|H]; apply Z.eqb_eq in H; subst a; reflexivity.
Qed.

(** Events do not change what a decoded frame needs. *)
Lemma frame_ready_after s new : frame_ready (after s new) = frame_ready s.
Proof. destruct s. reflexivity. Qed.

Lemma decoder_ready_frame_ready s : decoder_ready s -> frame_ready s = true.
Proof.
  intros ((x & Hx & _) & (a & Ha & _) & (b & Hb & _) & (c & Hc & _) & (d & Hd & _)).
  unfold frame_ready. rewrite Hx, Ha, Hb, Hc, Hd. simpl. apply orb_true_r.
Qed.

Lemma bind_ok {A B} (m : M A) (k : A -> M B) s a s' :
  m s = Ok a s' -> bind m k s = k a s'.
Proof. intros H. unfold bind. rewrite H. reflexivity. Qed.

Lemma bind_crash {A B} (m : M A) (k : A -> M B) s f s' :
  m s = Crash f s' -> bind m k s = Crash f s'.
Proof. intros H. unfold bind. rewrite H. reflexivity. Qed.

Lemma count_app kind t1 t2 : count kind (t1 ++ t2) = (count kind t1 + count kind t2)%nat.
Proof. unfold count. rewrite List.filter_app, length_app. reflexivity. Qed.

(** One decoded frame: it is scaled, copied and emitted when the session
    has what that takes, and the loop faults on a null pointer when it has
    not, before the scaling or before the copy. *)
Lemma receive_frame_step r rest res s :
  is_drain_signal r = false -> 0 <= r ->
  if frame_ready s
  then receive_loop (r :: rest) res s
       = receive_loop rest true
           (after s [AvcodecReceiveFrame r; SwsScale; ImageReady (decoded_frame s)])
  else receive_loop (r :: rest) res s = Crash NullDeref (after s [AvcodecReceiveFrame r])
       \/ receive_loop (r :: rest) res s
          = Crash NullDeref (after s [AvcodecReceiveFrame r; SwsScale]).
Proof.
  intros Hsig Hpos. cbn [receive_loop]. rewrite bind_event, Hsig.
  destruct (Z.ltb_spec r 0) as [?|_]; [lia|].
  unfold frame_ready, decoded_frame, copy_rows.
  destruct s as [w h ms mode sws frame rgb ctx fmt data0 pb lv nx tr].
  destruct ctx as [ctx|]; [|left; reflexivity].
  destruct frame as [frame|]; [|destruct sws; left; reflexivity].
  destruct sws as [sws|]; [|left; reflexivity].
  destruct rgb as [rgb|]; [|left; reflexivity].
  cbn [m_codecCtx m_swsContext m_frame m_rgbFrame m_imageWidth m_imageHeight
       rgb_data0 is_null negb andb].
  destruct (Qt.isNull (Qt.new_image w h Qt.Format_RGB888)) eqn:Hnull.
  - cbn [orb]. unfold_m. hsimpl. rewrite Hnull. hsimpl. rewrite <- !app_assoc. reflexivity.
  - destruct data0 as [data0|]; cbn [orb is_null negb].
    + unfold_m. hsimpl. rewrite Hnull. hsimpl. rewrite <- !app_assoc. reflexivity.
    + right. unfold_m. hsimpl. rewrite Hnull. hsimpl. rewrite <- !app_assoc. reflexivity.
Qed.

(** The drain pass.  It only adds events, and the frames among them have
    the configured size.  Either it returns: then it has ended if an
    answer is negative, the flag it returns is set when the flag it was
    given is set or a frame was emitted, and every decoded frame was scaled
    and emitted.  Or it faults on a null pointer at a decoded frame: the
    session lacks what a frame needs, and that one frame was decoded and
    not emitted. *)
Lemma receive_loop_outcome answers : forall res s,
  exists new,
    Forall (eq (decoded_frame s)) (frames new) /\
    ((exists r,
        receive_loop answers res s = Ok r (after s new) /\
        (drain_ends answers -> r <> None) /\
        match r with
        | Some res' => (res' = true <-> res = true \/ frames new <> [])
        | None => True
        end /\
        count is_received new = length (frames new) /\
        count is_scaled new = length (frames new))
     \/
     (receive_loop answers res s = Crash NullDeref (after s new) /\
      frame_ready s = false /\
      count is_received new = S (length (frames new)) /\
      (count is_scaled new = length (frames new) \/
       count is_scaled new = S (length (frames new))))).
Proof.
  induction answers as [|a rest IH]; intros res s.
  - exists []. split; [constructor|]. left. exists None.
    cbn [receive_loop]. unfold ret. rewrite after_nil.
    split; [reflexivity|]. split; [intros H; inversion H|].
    split; [exact I|]. split; reflexivity.
  - destruct (is_drain_signal a) eqn:Hsig.
    { exists [AvcodecReceiveFrame a]. split; [constructor|]. left. exists (Some res).
      cbn [receive_loop]. rewrite bind_event, Hsig.
      split; [reflexivity|]. split; [discriminate|].
      apply drain_signal_negative in Hsig.
      split; [simpl; intuition congruence|].
      unfold count. simpl. destruct (Z.leb_spec 0 a); [lia|]. split; reflexivity. }
    destruct (Z.ltb_spec a 0) as [Hneg|Hpos].
    { exists [AvcodecReceiveFrame a; Log (LogReceiveFrameFailed a)].
      split; [constructor|]. left. exists (Some res).
      cbn [receive_loop]. rewrite bind_event, Hsig.
      destruct (Z.ltb_spec a 0) as [_|?]; [|lia].
      rewrite bind_qDebug, after_after.
      split; [reflexivity|]. split; [discriminate|].
      split; [simpl; intuition congruence|].
      unfold count. simpl. destruct (Z.leb_spec 0 a); [lia|]. split; reflexivity. }
    assert (Hstep := receive_frame_step a rest res s Hsig Hpos).
    assert (Hrec : (0 <=? a) = true) by (apply Z.leb_le; exact Hpos).
    destruct (frame_ready s) eqn:Hready.
    + destruct (IH true (after s [AvcodecReceiveFrame a; SwsScale;
                                  ImageReady (decoded_frame s)]))
        as (new & Hall & Hout).
      rewrite decoded_frame_after in Hall.
      exists ([AvcodecReceiveFrame a; SwsScale; ImageReady (decoded_frame s)] ++ new).
      split; [simpl; constructor; [reflexivity|exact Hall]|].
      rewrite Hstep, <- after_after.
      destruct Hout as [(r & Hrun & Hend & Hres & Hc1 & Hc2)
                       |(Hrun & Hnot & Hc1 & Hc2)].
      * left. exists r. split; [exact Hrun|].
        split.
        { intros H. apply Hend. inversion H; subst; [lia|assumption]. }
        split.
        { destruct r as [res'|]; [|exact I]. simpl.
          split; [intros _; right; discriminate|].
          intros _. apply Hres. left; reflexivity. }
        rewrite !count_app. unfold count at 1 3. simpl. rewrite Hrec. simpl.
        split; lia.
      * rewrite frame_ready_after in Hnot. congruence.
    + destruct Hstep as [Hstep|Hstep].
      * exists [AvcodecReceiveFrame a]. split; [constructor|]. right.
        split; [exact Hstep|]. split; [reflexivity|].
        unfold count. simpl. rewrite Hrec. simpl. split; [reflexivity|left; reflexivity].
      * exists [AvcodecReceiveFrame a; SwsScale]. split; [constructor|]. right.
        split; [exact Hstep|]. split; [reflexivity|].
        unfold count. simpl. rewrite Hrec. simpl. split; [reflexivity|right; reflexivity].
Qed.

(** The decode loop, in the same way: it returns, or it faults on a null
    pointer at a decoded frame that the session cannot take. *)
Lemma decode_loop_outcome idx its : forall res s,
  exists new,
    Forall (eq (decoded_frame s)) (frames new) /\
    ((exists r,
        decode_loop idx its res s = Ok r (after s new) /\
        (loop_ends its -> r <> None) /\
        match r with
        | Some res' => (res' = true <-> res = true \/ frames new <> [])
        | None => True
        end /\
        count is_received new = length (frames new) /\
        count is_scaled new = length (frames new))
     \/
     (decode_loop idx its res s = Crash NullDeref (after s new) /\
      frame_ready s = false /\
      count is_received new = S (length (frames new)) /\
      (count is_scaled new = length (frames new) \/
       count is_scaled new = S (length (frames new))))).
Proof.
  induction its as [|it rest IH]; intros res s.
  - exists []. split; [constructor|]. left. exists None.
    cbn [decode_loop]. unfold ret. rewrite after_nil.
    split; [reflexivity|]. split; [intros [H _]; inversion H|].
    split; [exact I|]. split; reflexivity.
  - assert (Hleft : forall pre,
      frames pre = [] -> count is_received pre = 0%nat -> count is_scaled pre = 0%nat ->
      exists new,
        Forall (eq (decoded_frame s)) (frames new) /\
        ((exists r,
            Ok (Some res) (after s pre) = Ok r (after s new) /\
            (loop_ends (it :: rest) -> r <> None) /\
            match r with
            | Some res' => (res' = true <-> res = true \/ frames new <> [])
            | None => True
            end /\
            count is_received new = length (frames new) /\
            count is_scaled new = length (frames new))
         \/
         (@Ok (option bool) (Some res) (after s pre) = Crash NullDeref (after s new) /\
          frame_ready s = false /\
          count is_received new = S (length (frames new)) /\
          (count is_scaled new = length (frames new) \/
           count is_scaled new = S (length (frames new)))))).
    { intros pre Hf Hc1 Hc2. exists pre. rewrite Hf. split; [constructor|].
      left. exists (Some res). split; [reflexivity|]. split; [discriminate|].
      split; [simpl; intuition congruence|]. simpl. split; assumption. }
    assert (Hnext : forall res1 pre,
      Forall (eq (decoded_frame s)) (frames pre) ->
      count is_received pre = length (frames pre) ->
      count is_scaled pre = length (frames pre) ->
      (res1 = true <-> res = true \/ frames pre <> []) ->
      exists new,
        Forall (eq (decoded_frame s)) (frames new) /\
        ((exists r,
            decode_loop idx rest res1 (after s pre) = Ok r (after s new) /\
            (loop_ends (it :: rest) -> interruption it = false -> r <> None) /\
            match r with
            | Some res' => (res' = true <-> res = true \/ frames new <> [])
            | None => True
            end /\
            count is_received new = length (frames new) /\
            count is_scaled new = length (frames new))
         \/
         (decode_loop idx rest res1 (after s pre) = Crash NullDeref (after s new) /\
          frame_ready s = false /\
          count is_received new = S (length (frames new)) /\
          (count is_scaled new = length (frames new) \/
           count is_scaled new = S (length (frames new)))))).
    { intros res1 pre Hall Hc1 Hc2 Hres1.
      destruct (IH res1 (after s pre)) as (new & Hall' & Hout).
      rewrite decoded_frame_after in Hall'.
      exists (pre ++ new). rewrite <- after_after, frames_app.
      split; [apply Forall_app; split; assumption|].
      destruct Hout as [(r & Hrun & Hend & Hres & Hd1 & Hd2)
                       |(Hrun & Hnot & Hd1 & Hd2)].
      - left. exists r. split; [exact Hrun|].
        split.
        { intros [He Ha] Hint. apply Hend. split.
          - inversion He; subst; [congruence|assumption].
          - inversion Ha; assumption. }
        split.
        { destruct r as [res2|]; [|exact I]. rewrite Hres, Hres1. split.
          - intros [[H|H]|H]; [left; exact H | right | right];
              intros Hnil; apply app_eq_nil in Hnil; tauto.
          - intros [H|H]; [left; left; exact H|].
            destruct (frames pre); [right; exact H | left; right; discriminate]. }
        rewrite !count_app, length_app. split; lia.
      - right. rewrite frame_ready_after in Hnot.
        split; [exact Hrun|]. split; [exact Hnot|].
        rewrite !count_app, length_app. split; lia. }
    cbn [decode_loop].
    destruct (interruption it) eqn:Hint.
    { destruct (Hleft []) as (new & Hall & Hout); try reflexivity.
      rewrite after_nil in Hout. exists new. split; [exact Hall|exact Hout]. }
    assert (Hgo : forall res1 pre,
      Forall (eq (decoded_frame s)) (frames pre) ->
      count is_received pre = length (frames pre) ->
      count is_scaled pre = length (frames pre) ->
      (res1 = true <-> res = true \/ frames pre <> []) ->
      exists new,
        Forall (eq (decoded_frame s)) (frames new) /\
        ((exists r,
            decode_loop idx rest res1 (after s pre) = Ok r (after s new) /\
            (loop_ends (it :: rest) -> r <> None) /\
            match r with
            | Some res' => (res' = true <-> res = true \/ frames new <> [])
            | None => True
            end /\
            count is_received new = length (frames new) /\
            count is_scaled new = length (frames new))
         \/
         (decode_loop idx rest res1 (after s pre) = Crash NullDeref (after s new) /\
          frame_ready s = false /\
          count is_received new = S (length (frames new)) /\
          (count is_scaled new = length (frames new) \/
           count is_scaled new = S (length (frames new)))))).
    { intros res1 pre H1 H2 H3 H4.
      destruct (Hnext res1 pre H1 H2 H3 H4) as (new & Hall & Hout).
      exists new. split; [exact Hall|].
      destruct Hout as [(r & Hrun & Hend & Hrest)|Hcrash]; [left|right; exact Hcrash].
      exists r. split; [exact Hrun|]. split; [|exact Hrest].
      intros H. apply Hend; [exact H|reflexivity]. }
    assert (Hsame : res = true <-> res = true \/ @nil Qt.QImage <> [])
      by (intuition congruence).
    rewrite bind_event.
    destruct ((av_read_frame it <? 0) && negb (is_drain_signal (av_read_frame it))).
    { rewrite bind_qDebug, after_after. apply Hleft; reflexivity. }
    destruct ((stream_index it =? idx) || is_drain_signal (av_read_frame it)).
    + rewrite bind_event, after_after.
      destruct (avcodec_send_packet it <? 0).
      * destruct (negb (avcodec_send_packet it =? AV.AVERROR AV.EAGAIN)).
        { rewrite bind_qDebug, after_after. apply Hleft; reflexivity. }
        apply Hgo; try reflexivity; [constructor|exact Hsame].
      * match goal with |- context [bind (receive_loop ?a res) _ ?s1] =>
          destruct (receive_loop_outcome a res s1) as (n1 & Hall1 & Hout1) end.
        rewrite decoded_frame_after in Hall1.
        destruct Hout1 as [(d & Hd & Hend1 & Hdres & Hd1 & Hd2)
                          |(Hd & Hnot & Hd1 & Hd2)].
        2:{ rewrite (bind_crash _ _ _ _ _ Hd), after_after.
            rewrite frame_ready_after in Hnot.
            eexists. split; [|right; split; [reflexivity|]].
            - rewrite frames_app. simpl. exact Hall1.
            - split; [exact Hnot|]. split; [exact Hd1|exact Hd2]. }
        rewrite (bind_ok _ _ _ _ _ Hd), after_after.
        destruct d as [res1|].
        { rewrite bind_event, after_after.
          assert (Hpre : forall tail,
            frames tail = [] -> count is_received tail = 0%nat ->
            count is_scaled tail = 0%nat ->
            Forall (eq (decoded_frame s))
              (frames (([AvReadFrame (av_read_frame it);
                         AvcodecSendPacket (avcodec_send_packet it)] ++ n1) ++ tail)) /\
            count is_received
              (([AvReadFrame (av_read_frame it);
                 AvcodecSendPacket (avcodec_send_packet it)] ++ n1) ++ tail)
            = length (frames (([AvReadFrame (av_read_frame it);
                                AvcodecSendPacket (avcodec_send_packet it)] ++ n1) ++ tail)) /\
            count is_scaled
              (([AvReadFrame (av_read_frame it);
                 AvcodecSendPacket (avcodec_send_packet it)] ++ n1) ++ tail)
            = length (frames (([AvReadFrame (av_read_frame it);
                                AvcodecSendPacket (avcodec_send_packet it)] ++ n1) ++ tail)) /\
            (res1 = true <-> res = true \/
               frames (([AvReadFrame (av_read_frame it);
                         AvcodecSendPacket (avcodec_send_packet it)] ++ n1) ++ tail) <> [])).
          { intros tail Hf Hc1 Hc2.
            rewrite (count_app _ _ tail), (count_app _ _ tail), (frames_app _ tail).
            rewrite Hf, Hc1, Hc2, app_nil_r, !Nat.add_0_r.
            split; [exact Hall1|]. split; [exact Hd1|]. split; [exact Hd2|exact Hdres]. }
          destruct (Hpre [AvPacketUnref]) as (P1 & P2 & P3 & P4); try reflexivity.
          destruct (is_drain_signal (av_read_frame it)).
          - eexists. split; [exact P1|]. left. exists (Some res1).
            split; [reflexivity|]. split; [discriminate|]. split; [exact P4|].
            split; assumption.
          - apply Hgo; assumption. }
        eexists. split; [|left; exists None; split; [reflexivity|]].
        { rewrite frames_app. simpl. exact Hall1. }
        split.
        { intros [_ Ha]. inversion Ha; subst. exfalso. apply Hend1; auto. }
        split; [exact I|]. split; [exact Hd1|exact Hd2].
    + rewrite bind_event, after_after.
      destruct (is_drain_signal (av_read_frame it)).
      { apply Hleft; reflexivity. }
      apply Hgo; try reflexivity; [constructor|exact Hsame].
Qed.

(** *** Silent computations *)

Lemma silent_ret {A} (a : A) : silent (ret a).
Proof.
  intros s a' s' [= <- <-]. split; [reflexivity|].
  exists []. rewrite app_nil_r. auto.
Qed.

Lemma silent_get {A} (f : State -> A) : silent (get f).
Proof.
  intros s a' s' [= <- <-]. split; [reflexivity|].
  exists []. rewrite app_nil_r. auto.
Qed.

Lemma silent_crash {A} f : silent (@crash A f).
Proof. intros s a s' H. discriminate H. Qed.

Lemma silent_modify f :
  (forall s, config (f s) = config s /\ trace (f s) = trace s) -> silent (modify f).
Proof.
  intros Hf s a' s' [= <- <-]. destruct (Hf s) as [Hc Ht]. split; [exact Hc|].
  exists []. rewrite app_nil_r, Ht. auto.
Qed.

Lemma silent_event e : is_frame e = false -> silent (event e).
Proof.
  intros He s a' s' [= <- <-]. split; [destruct s; reflexivity|].
  exists [e]. split; [destruct s; reflexivity|].
  destruct e; try reflexivity. discriminate He.
Qed.

Lemma silent_alloc : silent alloc.
Proof.
  intros s a' s' [= <- <-]. split; [destruct s; reflexivity|].
  exists []. rewrite app_nil_r.
  split; [destruct s|]; reflexivity.
Qed.

Lemma silent_free p : silent (free p).
Proof.
  intros s a s' H. unfold free in H.
  assert (Hs : config s' = config s /\ trace s' = trace s).
  { destruct p as [b|]; [|inversion H; auto].
    destruct (decide (b ∈ live s)); [|discriminate H].
    inversion H. destruct s; auto. }
  destruct Hs as [Hc Ht]. split; [exact Hc|].
  exists []. rewrite app_nil_r. auto.
Qed.

Lemma silent_bind {A B} (m : M A) (k : A -> M B) :
  silent m -> (forall a, silent (k a)) -> silent (bind m k).
Proof.
  intros Hm Hk s b s' H. unfold bind in H.
  destruct (m s) as [a s1|f s1] eqn:Hms; [|discriminate H].
  destruct (Hm _ _ _ Hms) as (Hc1 & n1 & Ht1 & Hf1).
  destruct (Hk a _ _ _ H) as (Hc2 & n2 & Ht2 & Hf2).
  split; [congruence|].
  exists (n1 ++ n2). rewrite Ht2, Ht1, <- app_assoc, frames_app, Hf1, Hf2. auto.
Qed.

Ltac silent_step :=
  first
    [ apply silent_bind; [|intro]
    | apply silent_ret
    | apply silent_get
    | apply silent_crash
    | apply silent_alloc
    | apply silent_free
    | apply silent_event; reflexivity
    | apply silent_modify; intros []; split; reflexivity
    | match goal with
      | |- silent (if ?b then _ else _) => destruct b
      | |- silent (match ?x with _ => _ end) => destruct x
      end ].

Ltac silent_auto :=
  unfold free_and_null, alloc_if, qDebug, deref; repeat silent_step.

Lemma silent_h264Connect p : silent (h264Connect p).
Proof. unfold h264Connect. silent_auto. Qed.

Lemma silent_wait_loop ps : silent (wait_loop ps).
Proof.
  induction ps as [|p rest IH]; simpl; [apply silent_ret|].
  apply silent_bind; [destruct (Adb.isConnected p); [apply silent_ret|apply silent_h264Connect]|].
  intros up. silent_auto; exact IH.
Qed.

Lemma silent_read_packet c n : silent (read_packet c n).
Proof.
  unfold read_packet. apply silent_bind; [|intro; silent_auto].
  destruct (_ =? 0); [apply silent_wait_loop | apply silent_ret].
Qed.

Lemma silent_h264Init p : silent (h264Init p).
Proof. unfold h264Init. silent_auto. Qed.

Lemma silent_try_stream i st idx : silent (try_stream i st idx).
Proof. unfold try_stream. silent_auto. Qed.

Lemma silent_stream_loop ss : forall i idx, silent (stream_loop i ss idx).
Proof.
  induction ss as [|st rest IH]; intros i idx; simpl; [apply silent_ret|].
  apply silent_bind; [apply silent_try_stream | intro; apply IH].
Qed.

Lemma silent_h264Exit : silent h264Exit.
Proof. unfold h264Exit. silent_auto. Qed.

(** *** What the probe and the selection leave in the members *)

(** After [h264Init] the RGB picture is there exactly when av_image_alloc
    succeeded; the scaler and the decoder context are as they were. *)
Lemma h264Init_members p s ok s1 :
  h264Init p s = Ok ok s1 ->
  (rgb_data0 s1 <> None <-> av_image_alloc_ok p = true) /\
  m_swsContext s1 = m_swsContext s /\ m_codecCtx s1 = m_codecCtx s.
Proof.
  destruct s. unfold h264Init. unfold_m. unfold free. hsimpl.
  destruct (av_image_alloc_ok p); hsimpl;
    destruct (avformat_open_input p <? 0); hsimpl.
  all: free_ok; hsimpl.
  all: try (destruct (avformat_find_stream_info p <? 0); hsimpl).
  all: intros H; inversion H; subst; clear H; hsimpl.
  all: split; [|split; reflexivity].
  all: split; intros H; try reflexivity; try discriminate; try (contradiction H; reflexivity).
Qed.

(** The body of the loop: the index, the decoder context and the scaler
    after one stream. *)
Lemma try_stream_members i st idx s :
  exists s',
    try_stream i st idx s = Ok (if opens st then to_int i else idx) s' /\
    m_codecCtx s'
    = (if tried st then if opens st then Some (next s) else None
       else m_codecCtx s) /\
    m_swsContext s'
    = (if opens st then if sws_getContext st then Some (Pos.succ (next s)) else None
       else m_swsContext s).
Proof.
  unfold opens, tried. rewrite !(Z.leb_antisym _ 0).
  destruct s. unfold try_stream. unfold_m. unfold free.
  destruct (AV.is_video (codec_type st)), (avcodec_find_decoder st),
    (avcodec_alloc_context3 st), (avcodec_parameters_to_context st <? 0),
    (AV.is_video (ctx_codec_type st)), (avcodec_open2 st <? 0),
    (sws_getContext st).
  all: free_ok; eexists; (split; [reflexivity|]); split; reflexivity.
Qed.

Lemma tried_of_opens st : opens st = true -> tried st = true.
Proof.
  unfold opens, tried. intros H.
  repeat (apply andb_true_iff in H; destruct H as [H ?]).
  apply andb_true_iff. split; assumption.
Qed.

(** The selection does not touch the RGB picture. *)
Lemma try_stream_picture i st idx s x s' :
  try_stream i st idx s = Ok x s' -> rgb_data0 s' = rgb_data0 s.
Proof.
  destruct s. unfold try_stream. unfold_m. unfold free.
  destruct (AV.is_video (codec_type st)), (avcodec_find_decoder st),
    (avcodec_alloc_context3 st), (avcodec_parameters_to_context st <? 0),
    (AV.is_video (ctx_codec_type st)), (avcodec_open2 st <? 0),
    (sws_getContext st).
  all: free_ok; intros H; inversion H; reflexivity.
Qed.

(** After the selection the decoder context and the scaler are those of
    the last stream for which a context was allocated; without such a
    stream nothing changed. *)
Lemma stream_loop_members ss : forall i idx0 s,
  exists idx s',
    stream_loop i ss idx0 s = Ok idx s' /\
    rgb_data0 s' = rgb_data0 s /\
    match last_tried ss with
    | Some st =>
        (m_codecCtx s' <> None <-> opens st = true) /\
        (opens st = true -> (m_swsContext s' <> None <-> sws_getContext st = true))
    | None =>
        idx = idx0 /\ m_codecCtx s' = m_codecCtx s /\ m_swsContext s' = m_swsContext s
    end.
Proof.
  induction ss as [|st rest IH]; intros i idx0 s.
  - exists idx0, s. simpl. repeat split; reflexivity.
  - destruct (try_stream_members i st idx0 s) as (s1 & Hst & Hctx & Hsws).
    destruct (IH (i + 1) (if opens st then to_int i else idx0) s1)
      as (idx & s' & Hrun & Hdata & Hlast).
    exists idx, s'. cbn [stream_loop last_tried].
    rewrite (bind_ok _ _ _ _ _ Hst).
    split; [exact Hrun|].
    split; [rewrite Hdata; exact (try_stream_picture _ _ _ _ _ _ Hst)|].
    destruct (last_tried rest) as [x|]; [exact Hlast|].
    destruct Hlast as (Hidx & Hc & Hs). rewrite Hc, Hs, Hctx, Hsws.
    destruct (tried st) eqn:Htried.
    + destruct (opens st).
      * split; [split; [reflexivity|discriminate]|]. intros _.
        destruct (sws_getContext st); split; intros H; try reflexivity;
          try discriminate; contradiction H; reflexivity.
      * split; [split; [intros H; contradiction H; reflexivity|discriminate]|].
        discriminate.
    + assert (Hop : opens st = false).
      { destruct (opens st) eqn:Hop; [|reflexivity].
        apply tried_of_opens in Hop. congruence. }
      rewrite Hop in *. split; [exact Hidx|]. split; reflexivity.
Qed.

Lemma usable_alive s p : alive s p -> p <> None -> usable s p.
Proof.
  destruct p as [b|]; [|intros _ H; contradiction H; reflexivity].
  intros H _. exists b. split; [reflexivity|exact H].
Qed.

Lemma usable_not_null s p : usable s p -> p <> None.
Proof. intros (b & -> & _). discriminate. Qed.

(** When the selection returns an index, the session has what the decode
    loop uses exactly when FFmpeg equipped it. *)
Lemma selection_ready (w : World) s ok s1 idx s2 :
  idle s ->
  h264Init (probe w) s = Ok ok s1 ->
  h264VideoStreamIndex (streams w) s1 = Ok idx s2 ->
  idx <> -1 ->
  (decoder_ready s2 <-> equipped w = true).
Proof.
  intros Hidle Hinit Hsel Hidx.
  destruct (h264Init_ok (probe w) s Hidle) as (ok' & s1' & Hinit' & Hs1).
  rewrite Hinit in Hinit'. inversion Hinit'; subst ok' s1'; clear Hinit'.
  destruct (stream_loop_ok (streams w) 0 (-1) s1 Hs1) as (idx' & s2' & Hsel' & Hs2).
  unfold h264VideoStreamIndex in Hsel.
  rewrite Hsel in Hsel'. inversion Hsel'; subst idx' s2'; clear Hsel'.
  destruct (h264Init_members _ _ _ _ Hinit) as (Hdata & Hsws & Hctx).
  destruct Hidle as (_ & Hsws0 & Hctx0). rewrite Hsws0 in Hsws. rewrite Hctx0 in Hctx.
  destruct (stream_loop_members (streams w) 0 (-1) s1)
    as (idx' & s2' & Hsel' & Hdata2 & Hlast).
  rewrite Hsel in Hsel'. inversion Hsel'; subst idx' s2'; clear Hsel'.
  rewrite <- Hdata2 in Hdata.
  destruct Hs2 as (_ & (A1 & A2 & A3 & A4 & A5 & _) & (N1 & N2 & _) & _).
  unfold equipped.
  destruct (last_tried (streams w)) as [st|];
    [|destruct Hlast as (H & _); contradiction (Hidx H)].
  destruct Hlast as (Hc & Hs).
  split.
  - intros (U1 & U2 & _ & _ & U5).
    apply usable_not_null in U1, U2, U5.
    apply Hc in U1. rewrite (proj1 Hdata U5), U1, (proj1 (Hs U1) U2). reflexivity.
  - intros H. apply andb_true_iff in H. destruct H as [Hd H].
    apply andb_true_iff in H. destruct H as [Hop Hsc].
    split; [apply usable_alive; [exact A5|apply Hc; exact Hop]|].
    split; [apply usable_alive; [exact A1|apply (Hs Hop); exact Hsc]|].
    split; [apply usable_alive; assumption|].
    split; [apply usable_alive; assumption|].
    apply usable_alive; [exact A3|apply Hdata; exact Hd].
Qed.

(** *** h264Loop as a whole *)

Lemma session_ok_after s new : session_ok s -> session_ok (after s new).
Proof. destruct s. exact (fun H => H). Qed.

(** [h264Loop] as a whole, from a state in which no session is open.  What
    it adds to the trace is [new], and the frames in [new] have the
    configured size.  Either it returns: then [res] tells whether there is
    a frame, and the session is torn down.  Or it faults on a null pointer
    at a decoded frame, which happens only in a session that FFmpeg did not
    equip. *)
Lemma h264Loop_outcome (w : World) (s : State) :
  idle s ->
  exists new,
    Forall (eq (decoded_frame s)) (frames new) /\
    ((exists r s',
        h264Loop w s = Ok r s' /\ trace s' = trace s ++ new /\
        (loop_ends (iters w) -> r <> None) /\
        match r with
        | Some res => (res = true <-> frames new <> []) /\ torn_down s'
        | None => True
        end)
     \/
     (exists s',
        h264Loop w s = Crash NullDeref s' /\ trace s' = trace s ++ new /\
        equipped w = false)).
Proof.
  intros Hidle. unfold h264Loop.
  destruct (h264Init_ok (probe w) s Hidle) as (ok & s1 & Hinit & Hs1).
  rewrite (bind_ok _ _ _ _ _ Hinit).
  destruct (silent_h264Init _ _ _ _ Hinit) as (Hc1 & n1 & Ht1 & Hf1).
  assert (Hquit : forall (s2 : State) n2,
             session_ok s2 -> trace s2 = trace s ++ n2 -> frames n2 = [] ->
             exists new,
               Forall (eq (decoded_frame s)) (frames new) /\
               ((exists r s',
                   (exec h264Exit; ret (Some false)) s2 = Ok r s' /\
                   trace s' = trace s ++ new /\
                   (loop_ends (iters w) -> r <> None) /\
                   match r with
                   | Some res => (res = true <-> frames new <> []) /\ torn_down s'
                   | None => True
                   end)
                \/
                (exists s',
                   (exec h264Exit; ret (Some false)) s2 = Crash NullDeref s' /\
                   trace s' = trace s ++ new /\ equipped w = false))).
  { intros s2 n2 Hs2 Ht2 Hf2.
    destruct (h264Exit_ok s2 Hs2) as (s3 & Hexit & Hdown & Ht3).
    exists n2. rewrite Hf2. split; [constructor|]. left.
    exists (Some false), s3. rewrite (bind_ok _ _ _ _ _ Hexit).
    split; [reflexivity|]. split; [congruence|]. split; [discriminate|].
    split; [|exact Hdown]. split; [discriminate | intros H; contradiction H; reflexivity]. }
  destruct ok; cbn [negb]; [|exact (Hquit s1 n1 Hs1 Ht1 Hf1)].
  destruct (stream_loop_ok (streams w) 0 (-1) s1 Hs1) as (idx & s2 & Hsel & Hs2).
  assert (Hsel' : h264VideoStreamIndex (streams w) s1 = Ok idx s2) by exact Hsel.
  rewrite (bind_ok _ _ _ _ _ Hsel').
  destruct (silent_stream_loop _ _ _ _ _ _ Hsel) as (Hc2 & n2 & Ht2 & Hf2).
  assert (Ht12 : trace s2 = trace s ++ (n1 ++ n2))
    by (rewrite Ht2, Ht1, <- app_assoc; reflexivity).
  assert (Hf12 : frames (n1 ++ n2) = [])
    by (rewrite frames_app, Hf1, Hf2; reflexivity).
  destruct (Z.eqb_spec idx (-1)) as [_|Hidx]; [exact (Hquit s2 _ Hs2 Ht12 Hf12)|].
  destruct (decode_loop_outcome idx (iters w) false s2) as (n3 & Hall & Hout).
  assert (Hsame : decoded_frame s2 = decoded_frame s).
  { unfold decoded_frame. unfold config in Hc1, Hc2. congruence. }
  rewrite Hsame in Hall.
  exists ((n1 ++ n2) ++ n3). rewrite !frames_app, Hf1, Hf2. cbn [app].
  split; [exact Hall|].
  destruct Hout as [(r & Hrun & Hend & Hres & _)|(Hrun & Hnot & _)].
  - left. rewrite (bind_ok _ _ _ _ _ Hrun).
    destruct r as [res|].
    + destruct (h264Exit_ok (after s2 n3) (session_ok_after _ _ Hs2))
        as (s4 & Hexit & Hdown & Ht4).
      exists (Some res), s4. rewrite (bind_ok _ _ _ _ _ Hexit).
      split; [reflexivity|].
      split; [rewrite Ht4, trace_after, Ht12, <- !app_assoc; reflexivity|].
      split; [discriminate|]. split; [|exact Hdown].
      rewrite Hres. split; [intros [Hx|Hx]; [discriminate Hx|exact Hx] | intros Hx; right; exact Hx].
    + exists None, (after s2 n3). split; [reflexivity|].
      split; [rewrite trace_after, Ht12, <- !app_assoc; reflexivity|].
      split; [exact Hend|exact I].
  - right. exists (after s2 n3). rewrite (bind_crash _ _ _ _ _ Hrun).
    split; [reflexivity|].
    split; [rewrite trace_after, Ht12, <- !app_assoc; reflexivity|].
    destruct (equipped w) eqn:Heq; [|reflexivity].
    apply (selection_ready w s true s1 idx s2 Hidle Hinit Hsel' Hidx) in Heq.
    apply decoder_ready_frame_ready in Heq. congruence.
Qed.

(** In a session that FFmpeg equips, [h264Loop] does not fault. *)
Lemma h264Loop_runs (w : World) (s : State) :
  idle s ->
  equipped w = true ->
  exists r s' new,
    h264Loop w s = Ok r s' /\ trace s' = trace s ++ new /\
    Forall (eq (decoded_frame s)) (frames new) /\
    (loop_ends (iters w) -> r <> None) /\
    match r with
    | Some res => (res = true <-> frames new <> []) /\ torn_down s'
    | None => True
    end.
Proof.
  intros Hidle Heq.
  destruct (h264Loop_outcome w s Hidle) as (new & Hall & Hout).
  destruct Hout as [(r & s' & Hrun & Ht & Hend & Hres)|(s' & _ & _ & Hnot)];
    [|congruence].
  exists r, s', new. repeat (split; [assumption|]). exact Hres.
Qed.

(** *** The byte source *)

Lemma to_int_small z : - 2 ^ 31 <= z < 2 ^ 31 -> to_int z = z.
Proof.
  intros H. unfold to_int.
  rewrite Z.mod_small by lia. lia.
Qed.

Lemma h264Connect_runs p s : exists b s', h264Connect p s = Ok b s'.
Proof.
  unfold h264Connect.
  destruct (Adb.connectToDevice p); simpl; [|eauto].
  rewrite !bind_get, bind_event.
  destruct (Adb.send p); simpl; rewrite bind_qDebug; eauto.
Qed.

(** The wait loop does not fault; it is left with a count of bytes that
    the connection reported and that is not zero, or returns -1. *)
Lemma wait_loop_result ps : forall s,
  exists w s',
    wait_loop ps s = Ok w s' /\
    match w with
    | Got len => len ∈ map Adb.bytesAvailable ps /\ len <> 0
    | Return r => r = -1
    | Blocked => True
    end.
Proof.
  induction ps as [|p rest IH]; intros s; simpl.
  - exists Blocked, s. split; [reflexivity|exact I].
  - assert (Hlater : forall s1,
      exists w s',
        wait_loop rest s1 = Ok w s' /\
        match w with
        | Got len => len ∈ Adb.bytesAvailable p :: map Adb.bytesAvailable rest /\ len <> 0
        | Return r => r = -1
        | Blocked => True
        end).
    { intros s1. destruct (IH s1) as (w & s' & Hrun & Hw). exists w, s'.
      split; [exact Hrun|]. destruct w; try exact Hw.
      destruct Hw as [Hin Hne]. split; [right; exact Hin|exact Hne]. }
    unfold bind at 1.
    assert (Hup : exists up s1,
      (if Adb.isConnected p then ret true else h264Connect p) s = Ok up s1).
    { destruct (Adb.isConnected p); [eexists _, _; reflexivity|apply h264Connect_runs]. }
    destruct Hup as (up & s1 & Hup). rewrite Hup.
    destruct up; simpl; [|exists (Return (-1)), s1; split; reflexivity].
    destruct (Adb.isInterruptionRequested p);
      [exists (Return (-1)), s1; split; reflexivity|].
    destruct (Adb.waitForReadyRead p); simpl.
    + destruct (Z.eqb_spec (Adb.bytesAvailable p) 0) as [Hz|Hnz]; [apply Hlater|].
      exists (Got (Adb.bytesAvailable p)), s1. split; [reflexivity|].
      split; [left|exact Hnz].
    + destruct (Qt.is_remote_closed (Adb.error p)).
      { rewrite bind_qDebug. eexists (Return (-1)), _. split; reflexivity. }
      destruct (Qt.is_timeout (Adb.error p)); simpl; [apply Hlater|].
      rewrite bind_qDebug. eexists (Return (-1)), _. split; reflexivity.
Qed.

(** Rounds in which nothing arrives and nothing fails change nothing. *)
Lemma wait_loop_skip before : forall ps s,
  Forall still_waiting before -> wait_loop (before ++ ps) s = wait_loop ps s.
Proof.
  induction before as [|p rest IH]; intros ps s Hall; [reflexivity|].
  inversion Hall as [|? ? (Hc & Hi & Hw) Hrest]; subst. simpl.
  unfold bind at 1. rewrite Hc. simpl. rewrite Hi.
  destruct Hw as [[Hw He]|[Hw Hb]]; rewrite Hw; simpl.
  - rewrite He. simpl. apply IH, Hrest.
  - rewrite Hb. simpl. apply IH, Hrest.
Qed.

Lemma wait_loop_blocked ps s :
  Forall still_waiting ps -> wait_loop ps s = Ok Blocked s.
Proof.
  intros H. rewrite <- (app_nil_r ps). rewrite wait_loop_skip by exact H. reflexivity.
Qed.

(** *** The snapshot loop *)

Lemma placeholder_after s new : placeholder (after s new) = placeholder s.
Proof. destruct s. reflexivity. Qed.

Lemma placeholder_scaled s :
  0 < m_imageWidth s -> 0 < m_imageHeight s ->
  Qt.scaledToWidth (m_imageWidth s)
    (Qt.fill Qt.black (Qt.new_image (m_imageWidth s) (m_imageHeight s) Qt.Format_RGB888))
  = placeholder s.
Proof.
  intros Hw Hh. unfold Qt.new_image.
  destruct (Z.leb_spec (m_imageWidth s) 0) as [?|_]; [lia|].
  destruct (Z.leb_spec (m_imageHeight s) 0) as [?|_]; [lia|].
  simpl. unfold Qt.scaledToWidth. simpl.
  destruct (Z.leb_spec (m_imageWidth s) 0) as [?|_]; [lia|].
  rewrite Z.eqb_refl. reflexivity.
Qed.

(** While the display is off, each iteration emits the placeholder and
    sleeps. *)
Lemma nativeLoop_asleep (sleeping : list Shot) :
  forall (rest : list Shot) (s : State),
  0 < m_imageWidth s -> 0 < m_imageHeight s ->
  Forall asleep sleeping ->
  nativeLoop (sleeping ++ rest) s
    = nativeLoop rest (after s (placeholder_rounds s (length sleeping))).
Proof.
  induction sleeping as [|sh more IH]; intros rest s Hw Hh Hall.
  - simpl. unfold placeholder_rounds. simpl. rewrite after_nil. reflexivity.
  - inversion Hall as [|? ? [Hi Ha] Hmore]; subst.
    cbn [app nativeLoop length]. rewrite Hi, !bind_get, Ha.
    rewrite placeholder_scaled by assumption.
    rewrite !bind_event, after_after.
    rewrite IH; [| destruct s; assumption | destruct s; assumption | exact Hmore].
    rewrite after_after. f_equal. f_equal.
    unfold placeholder_rounds. rewrite placeholder_after. destruct s; reflexivity.
Qed.

Lemma decoded_frame_size s :
  0 < m_imageWidth s -> 0 < m_imageHeight s ->
  decoded_frame s
  = Qt.mkQImage (m_imageWidth s) (m_imageHeight s) Qt.Format_RGB888 Qt.Picture.
Proof.
  intros Hw Hh. unfold decoded_frame, Qt.new_image.
  destruct (Z.leb_spec (m_imageWidth s) 0) as [?|_]; [lia|].
  destruct (Z.leb_spec (m_imageHeight s) 0) as [?|_]; [lia|].
  reflexivity.
Qed.

Lemma frames_rounds_of interval imgs : frames (rounds_of interval imgs) = imgs.
Proof.
  induction imgs as [|img rest IH]; [reflexivity|].
  unfold rounds_of in *. simpl. rewrite IH. reflexivity.
Qed.

Lemma interval_after s new : m_nativeInterval (after s new) = m_nativeInterval s.
Proof. destruct s. reflexivity. Qed.

Lemma videoMode_after s new : m_videoMode (after s new) = m_videoMode s.
Proof. destruct s. reflexivity. Qed.

(** One iteration that is not interrupted, in a still-image mode or with
    the display off: a frame and a sleep. *)
Lemma nativeLoop_round sh rest s :
  shot_interruption sh = false ->
  isScreenAwake sh = false \/ m_videoMode s <> FastH264 ->
  nativeLoop (sh :: rest) s
  = nativeLoop rest
      (after s [ImageReady (round_frame s sh); Msleep (m_nativeInterval s)]).
Proof.
  intros Hi Hmode. cbn [nativeLoop]. unfold round_frame, fetch_of.
  rewrite Hi, !bind_get.
  destruct (isScreenAwake sh).
  - destruct Hmode as [Hoff|Hmode]; [discriminate Hoff|].
    destruct (m_videoMode s) eqn:Hm; try contradiction.
    all: rewrite !bind_event, after_after; reflexivity.
  - rewrite !bind_event, after_after. reflexivity.
Qed.

Lemma round_frame_after s new sh : round_frame (after s new) sh = round_frame s sh.
Proof. destruct s. reflexivity. Qed.

(** The frames of the snapshot loop are those of the rounds it ran, in
    order: the loop runs the first [n] iterations of the script. *)
Lemma nativeLoop_round_frames (shs : list Shot) :
  forall s : State,
  exists r n,
    nativeLoop shs s
    = Ok r (after s (rounds_of (m_nativeInterval s)
                       (map (round_frame s) (take n shs)))).
Proof.
  induction shs as [|sh rest IH]; intros s.
  - exists None, 0%nat. unfold rounds_of. simpl. rewrite after_nil. reflexivity.
  - destruct (shot_interruption sh) eqn:Hi.
    { exists (Some tt), 0%nat. unfold rounds_of. simpl. rewrite Hi, after_nil.
      reflexivity. }
    assert (Hround : isScreenAwake sh = false \/ m_videoMode s <> FastH264 ->
      exists r n,
        nativeLoop (sh :: rest) s
        = Ok r (after s (rounds_of (m_nativeInterval s)
                           (map (round_frame s) (take n (sh :: rest)))))).
    { intros Hmode. rewrite (nativeLoop_round sh rest s Hi Hmode).
      destruct (IH (after s [ImageReady (round_frame s sh);
                             Msleep (m_nativeInterval s)])) as (r & n & Hrun).
      exists r, (S n). rewrite Hrun, after_after, interval_after.
      cbn [take map]. f_equal. f_equal. unfold rounds_of. cbn [map concat app].
      f_equal. f_equal. f_equal. f_equal. apply map_ext. intros x.
      apply round_frame_after. }
    destruct (isScreenAwake sh) eqn:Ha; [|apply Hround; left; reflexivity].
    destruct (m_videoMode s) eqn:Hm; try (apply Hround; right; discriminate).
    exists (Some tt), 0%nat. unfold rounds_of. cbn [nativeLoop].
    rewrite Hi, !bind_get, Ha, Hm. simpl. rewrite after_nil. reflexivity.
Qed.

(** A smooth scale to a positive width gives a null image, or an image of
    that width whose height is within one pixel of what the aspect ratio
    of the source asks for. *)
Lemma scaledToWidth_size w img :
  Qt.isNull (Qt.scaledToWidth w img) = true \/
  (Qt.width (Qt.scaledToWidth w img) = w /\
   (0 < Qt.width img ->
    w * Qt.height img - Qt.width img
      < Qt.height (Qt.scaledToWidth w img) * Qt.width img
      < w * Qt.height img + Qt.width img)).
Proof.
  unfold Qt.scaledToWidth.
  destruct (Qt.isNull img) eqn:Hnull; [left; reflexivity|].
  destruct (w <=? 0); [left; reflexivity|].
  destruct (Z.eqb_spec w (Qt.width img)) as [->|_].
  { right. split; [reflexivity|]. intros Hpos. lia. }
  destruct (Qt.scaled_height w img <=? 0); [left; reflexivity|].
  right. split; [reflexivity|]. intros Hpos. cbn [Qt.height]. unfold Qt.scaled_height.
  assert (Hd : 0 < 10000 * Qt.width img) by lia.
  pose proof (Z.div_mod (10000 * w * Qt.height img + 9999 * Qt.width img)
                (10000 * Qt.width img) ltac:(lia)) as Hdiv.
  pose proof (Z.mod_pos_bound (10000 * w * Qt.height img + 9999 * Qt.width img)
                (10000 * Qt.width img) Hd) as Hmod.
  nia.
Qed.

(** *** A new worker, and facts on the concrete scripts *)

Lemma idle_new_thread w h ms mode : idle (new_thread w h ms mode).
Proof.
  split; [|split; reflexivity].
  intros b Hb. simpl in Hb. exfalso. exact (not_elem_of_empty (C:=gset block) b Hb).
Qed.

(** *** The index that the stream selection returns *)

(** The body of the loop takes the index of a stream that opens, and
    keeps the index it had otherwise. *)
Lemma try_stream_index i st idx s :
  exists s', try_stream i st idx s = Ok (if opens st then to_int i else idx) s'.
Proof.
  unfold opens. rewrite !(Z.leb_antisym _ 0).
  destruct s. unfold try_stream. unfold_m. unfold free.
  destruct (AV.is_video (codec_type st)), (avcodec_find_decoder st),
    (avcodec_alloc_context3 st), (avcodec_parameters_to_context st <? 0),
    (AV.is_video (ctx_codec_type st)), (avcodec_open2 st <? 0),
    (sws_getContext st).
  all: free_ok; eexists; reflexivity.
Qed.

Lemma stream_loop_last ss : forall i idx0 s,
  0 <= i -> i + Z.of_nat (length ss) <= 2 ^ 31 ->
  exists idx s',
    stream_loop i ss idx0 s = Ok idx s' /\
    ((idx = idx0 /\ Forall (fun st => opens st = false) ss) \/
     (exists k st,
        idx = i + Z.of_nat k /\ ss !! k = Some st /\ opens st = true /\
        forall j st', (k < j)%nat -> ss !! j = Some st' -> opens st' = false)).
Proof.
  induction ss as [|st rest IH]; intros i idx0 s Hi Hlen; simpl.
  - exists idx0, s. split; [reflexivity|]. left. split; [reflexivity|constructor].
  - simpl in Hlen.
    destruct (try_stream_index i st idx0 s) as [s1 Hst].
    unfold bind at 1. rewrite Hst.
    destruct (IH (i + 1) (if opens st then to_int i else idx0) s1) as (idx & s' & Hrun & Hres);
      [lia | lia |].
    exists idx, s'. split; [exact Hrun|].
    destruct Hres as [[Hidx Hall] | (k & st' & Hidx & Hk & Hop & Hlater)].
    + destruct (opens st) eqn:Hop.
      * right. exists 0%nat, st. rewrite to_int_small in Hidx by lia.
        split; [lia|]. split; [reflexivity|]. split; [exact Hop|].
        intros [|j] st' Hj Hlk; [lia|]. simpl in Hlk.
        rewrite Forall_lookup in Hall. exact (Hall j st' Hlk).
      * left. split; [exact Hidx|]. constructor; assumption.
    + right. exists (S k), st'. split; [lia|]. split; [exact Hk|]. split; [exact Hop|].
      intros [|j] st'' Hj Hlk; [lia|]. simpl in Hlk.
      apply (Hlater j st''); [lia | exact Hlk].
Qed.

Lemma still_waiting_timeout : still_waiting (poll_error Qt.SocketTimeoutError).
Proof. split; [reflexivity|]. split; [reflexivity|]. left. split; reflexivity. Qed.

Lemma asleep_shot_asleep : asleep shot_asleep.
Proof. split; reflexivity. Qed.

(** * The claims *)

(** ** C1: the result of the decode loop *)

(** Claim C1.  Started in a state where no session is open: whenever
    [h264Loop] returns, by whichever way out - a failed probe, no usable
    stream, a fatal read or send, the end of the input, an interruption -
    the value it returns is [true] exactly when at least one frame was
    emitted during the call.  And it does return: in a session that FFmpeg
    equips (the RGB picture is allocated, and the last video stream with a
    decoder opens and gets a scaler) it does not fault, and it returns when
    the script lets the loop end.  The one fault there is, on a null
    pointer at a decoded frame, needs a session that is not equipped. *)
Theorem h264Loop_success_iff_frame (w : World) (s : State) :
  idle s ->
  (forall res s',
     h264Loop w s = Ok (Some res) s' ->
     exists new, trace s' = trace s ++ new /\ (res = true <-> frames new <> [])) /\
  (equipped w = true ->
   exists r s', h264Loop w s = Ok r s' /\ (loop_ends (iters w) -> r <> None)) /\
  (forall f s', h264Loop w s = Crash f s' -> f = NullDeref /\ equipped w = false).
Proof.
  intros Hidle.
  destruct (h264Loop_outcome w s Hidle) as (new & _ & Hout).
  split; [|split].
  - intros res s' Hrun.
    destruct Hout as [(r & s1 & Hrun1 & Ht & _ & Hres)|(s1 & Hrun1 & _)];
      rewrite Hrun in Hrun1; [|discriminate Hrun1].
    inversion Hrun1; subst r s1. exists new. split; [exact Ht|apply Hres].
  - intros Heq.
    destruct (h264Loop_runs w s Hidle Heq) as (r & s' & n & Hrun & _ & _ & Hend & _).
    exists r, s'. split; [exact Hrun|exact Hend].
  - intros f s' Hrun.
    destruct Hout as [(r & s1 & Hrun1 & _)|(s1 & Hrun1 & _ & Hnot)];
      rewrite Hrun in Hrun1; [discriminate Hrun1|].
    inversion Hrun1; subst f s1. split; [reflexivity|exact Hnot].
Qed.

(** Witness of C1: one frame, then the interruption. *)
Lemma h264Loop_success_iff_frame_witness :
  idle s0 /\
  (forall res s',
     h264Loop world_stopped s0 = Ok (Some res) s' ->
     exists new, trace s' = trace s0 ++ new /\ (res = true <-> frames new <> [])) /\
  (equipped world_stopped = true ->
   exists r s',
     h264Loop world_stopped s0 = Ok r s' /\
     (loop_ends (iters world_stopped) -> r <> None)) /\
  (forall f s',
     h264Loop world_stopped s0 = Crash f s' ->
     f = NullDeref /\ equipped world_stopped = false).
Proof.
  split; [apply idle_new_thread|].
  apply (h264Loop_success_iff_frame world_stopped s0). apply idle_new_thread.
Defined.

(** That script equips the session and lets the loop end; the loop returns
    [true] and has emitted one frame of 480 x 800. *)
Example h264Loop_world_stopped :
  equipped world_stopped = true /\
  loop_ends (iters world_stopped) /\
  exists s', h264Loop world_stopped s0 = Ok (Some true) s' /\
             frames (trace s') = [Qt.mkQImage 480 800 Qt.Format_RGB888 Qt.Picture].
Proof.
  split; [reflexivity|]. split.
  - split.
    + apply Exists_cons_tl, Exists_cons_hd. reflexivity.
    + repeat constructor; vm_compute; reflexivity.
  - eexists. split; vm_compute; reflexivity.
Qed.

(** One frame, then the end of the input: the same result. *)
Example h264Loop_world1 :
  exists s', h264Loop world1 s0 = Ok (Some true) s' /\
             frames (trace s') = [Qt.mkQImage 480 800 Qt.Format_RGB888 Qt.Picture].
Proof. eexists. split; vm_compute; reflexivity. Qed.

(** When av_image_alloc failed, when the selected stream got no scaler,
    or when a later stream left no decoder context, the first decoded
    frame is a fault: the rows are copied from a null picture, sws_scale
    is given a null scaler, or the decoder is called on a null context. *)
Example h264Loop_unequipped :
  (exists s', h264Loop world_no_picture s0 = Crash NullDeref s' /\
              frames (trace s') = [] /\ last (trace s') = Some SwsScale) /\
  (exists s', h264Loop world_no_scaler s0 = Crash NullDeref s' /\
              frames (trace s') = [] /\
              last (trace s') = Some (AvcodecReceiveFrame 0)) /\
  (exists s', h264Loop world_no_decoder s0 = Crash NullDeref s' /\
              frames (trace s') = []).
Proof.
  split; [|split]; eexists; (split; [|try split]); vm_compute; reflexivity.
Qed.

(** ** C2: the teardown called twice *)

(** Claim C2.  The teardown is not idempotent: whenever a call of
    [h264Exit] succeeds, the next call faults.  The first call leaves
    [m_swsContext] holding the freed scaler, so the second frees it again;
    without a scaler the second call reaches [m_rgbFrame->data[0]] with
    [m_rgbFrame] reset to NULL. *)
Theorem h264Exit_twice_faults (s s' : State) :
  h264Exit s = Ok tt s' ->
  exists f s'', h264Exit s' = Crash f s''.
Proof.
  intros H.
  destruct s as [w h ms mode sws frame rgb ctx fmt data0 pb lv nx tr].
  destruct sws as [sws|], frame as [frame|], rgb as [rgb|], ctx as [ctx|],
    fmt as [fmt|], data0 as [data0|], pb as [pb|].
  all: unfold h264Exit in H; unfold_m; unfold free in H; hsimpl.
  all: repeat (match type of H with
               | context [@decide ?P ?d] => destruct (@decide P d)
               end; hsimpl; try discriminate H).
  all: try discriminate H.
  all: inversion H; subst s'; clear H.
  all: unfold h264Exit; unfold_m; unfold free; hsimpl.
  all: try (eexists _, _; reflexivity).
  all: match goal with
       | |- context [@decide ?P ?d] =>
           let Hin := fresh "Hin" in
           destruct (@decide P d) as [Hin|_];
             [exfalso;
              repeat match goal with
                     | Hx : _ ∈ _ ∖ _ |- _ =>
                         apply elem_of_difference in Hx; destruct Hx
                     end;
              match goal with
              | Hx : ?b ∉ {[ ?b ]} |- _ => apply Hx, elem_of_singleton; reflexivity
              end|]
       end.
  all: eexists _, _; reflexivity.
Qed.

(** Witness of C2: the teardown of a session with one video stream. *)
Lemma h264Exit_twice_faults_witness :
  h264Exit session1 = Ok tt closed1 /\
  exists f s'', h264Exit closed1 = Crash f s''.
Proof.
  split; [vm_compute; reflexivity|].
  apply (h264Exit_twice_faults session1 closed1). vm_compute. reflexivity.
Defined.

(** The second teardown of that session frees the scaler a second time. *)
Example h264Exit_second_call_double_free :
  h264Exit session1 = Ok tt closed1 /\
  m_swsContext closed1 = m_swsContext session1 /\
  h264Exit closed1 = Crash DoubleFree closed1.
Proof. repeat split; vm_compute; reflexivity. Qed.

(** Without a scaler (the probe of the session never reached the stream
    selection) the first teardown succeeds and the second dereferences
    NULL. *)
Example h264Exit_without_scaler_faults :
  let opened := state_of (h264Init probe_ok s0) in
  h264Exit opened = Ok tt (state_of (h264Exit opened)) /\
  h264Exit (state_of (h264Exit opened))
  = Crash NullDeref (state_of (h264Exit opened)).
Proof. split; vm_compute; reflexivity. Qed.

(** The same defect between two sessions of one worker: after a session
    that created a scaler, a second session whose probe fails tears down
    with the stale [m_swsContext] and frees it again, although that
    session never created a decoder or a scaler. *)
Example h264Exit_after_second_probe_fails :
  let used := state_of (h264Loop world1 s0) in
  h264Loop world1 s0 = Ok (Some true) used /\
  exists s', h264Loop world_probe_fails used = Crash DoubleFree s'.
Proof. split; [|eexists]; vm_compute; reflexivity. Qed.

(** ** C3: a connection closed by the device *)

(** Counterexample to C3 as stated: on a remote-closed connection the
    byte source returns -1, which is not the end-of-input result and is
    what it returns for a refused connection too; a decode loop whose read
    reports -1 logs the diagnostic and ends without feeding the decoder. *)
Lemma remote_closed_fill_is_fatal :
  read_packet conn_closed 8192 s0
    = Ok (Some (-1))
         (after s0 [Log (LogHostDisconnected Qt.RemoteHostClosedError)]) /\
  classify_fill (-1) <> EndOfInput /\
  read_packet conn_refused 8192 s0
    = Ok (Some (-1))
         (after s0 [Log (LogSocketReadFailed Qt.ConnectionRefusedError)]) /\
  decode_loop 0 [iter_read_failed; iter_frame] false s0
    = Ok (Some false)
         (after s0 [AvReadFrame (-1); Log (LogReadFrameFailed (-1))]).
Proof.
  split; [vm_compute; reflexivity|].
  split; [vm_compute; discriminate|].
  split; vm_compute; reflexivity.
Qed.

(** Claim C3, amended.  When the wait loop of the byte source meets a
    socket error that is not a time-out - the remote-closed condition or
    any other - [read_packet] writes the diagnostic of that error and
    returns -1: the same value in both cases, which the I/O layer reads as
    an error, not as the end of the input.  A read of the decode loop that
    reports -1 logs the av_read_frame diagnostic and leaves the loop with
    no drain pass. *)
Theorem remote_closed_returns_failure
  (c : Adb.Conn) (earlier : list Adb.Poll) (p : Adb.Poll) (later : list Adb.Poll)
  (buf_size : Z) (s : State)
  (idx : Z) (it : Iter) (rest : list Iter) (res : bool) (s2 : State) :
  Adb.bytesAvailable0 c = 0 ->
  Adb.polls c = earlier ++ p :: later ->
  Forall still_waiting earlier ->
  Adb.isConnected p = true ->
  Adb.isInterruptionRequested p = false ->
  Adb.waitForReadyRead p = false ->
  Adb.error p <> Qt.SocketTimeoutError ->
  interruption it = false ->
  av_read_frame it = -1 ->
  read_packet c buf_size s
    = Ok (Some (-1)) (after s [Log (socket_diagnostic (Adb.error p))]) /\
  classify_fill (-1) = Fatal (-1) /\
  decode_loop idx (it :: rest) res s2
    = Ok (Some res) (after s2 [AvReadFrame (-1); Log (LogReadFrameFailed (-1))]).
Proof.
  intros Hz Hpolls Hwait Hc Hi Hw He Hint Hread.
  split; [|split; [reflexivity|]].
  - unfold read_packet. rewrite Hz, Hpolls. simpl.
    unfold bind at 1. rewrite wait_loop_skip by exact Hwait. simpl.
    unfold bind at 1. rewrite Hc. simpl. rewrite Hi, Hw. simpl.
    unfold socket_diagnostic.
    destruct (Adb.error p); try contradiction; reflexivity.
  - simpl. rewrite Hint, Hread, bind_event.
    change (is_drain_signal (-1)) with false. simpl.
    rewrite bind_qDebug, after_after. reflexivity.
Qed.

(** Witness of C3: a time-out, then the device closes the connection. *)
Lemma remote_closed_returns_failure_witness :
  Adb.bytesAvailable0 conn_closed = 0 /\
  Adb.polls conn_closed
    = [poll_error Qt.SocketTimeoutError] ++ poll_error Qt.RemoteHostClosedError :: [] /\
  Forall still_waiting [poll_error Qt.SocketTimeoutError] /\
  Adb.error (poll_error Qt.RemoteHostClosedError) <> Qt.SocketTimeoutError /\
  interruption iter_read_failed = false /\
  av_read_frame iter_read_failed = -1 /\
  read_packet conn_closed 8192 s0
    = Ok (Some (-1))
         (after s0 [Log (socket_diagnostic
                           (Adb.error (poll_error Qt.RemoteHostClosedError)))]) /\
  classify_fill (-1) = Fatal (-1) /\
  decode_loop 0 (iter_read_failed :: [iter_frame]) false s0
    = Ok (Some false) (after s0 [AvReadFrame (-1); Log (LogReadFrameFailed (-1))]).
Proof.
  assert (Hw : Forall still_waiting [poll_error Qt.SocketTimeoutError])
    by (constructor; [exact still_waiting_timeout|constructor]).
  assert (He : Adb.error (poll_error Qt.RemoteHostClosedError) <> Qt.SocketTimeoutError)
    by discriminate.
  split; [reflexivity|]. split; [reflexivity|]. split; [exact Hw|].
  split; [exact He|]. split; [reflexivity|]. split; [reflexivity|].
  exact (remote_closed_returns_failure conn_closed
           [poll_error Qt.SocketTimeoutError] (poll_error Qt.RemoteHostClosedError) []
           8192 s0 0 iter_read_failed [iter_frame] false s0
           eq_refl eq_refl Hw eq_refl eq_refl eq_refl He eq_refl eq_refl).
Defined.

(** ** C4: a read that reports EAGAIN *)

(** Counterexample to C4 as stated: the read reports EAGAIN while a
    decodable packet is still to come; after the drain pass the loop ends
    and never reads that packet. *)
Lemma eagain_read_ends_loop :
  decode_loop 0 [iter_starved; iter_frame; iter_eof] false s0
  = Ok (Some false)
       (after s0 [AvReadFrame (AV.AVERROR AV.EAGAIN); AvcodecSendPacket 0;
                  AvcodecReceiveFrame (AV.AVERROR AV.EAGAIN); AvPacketUnref]).
Proof. vm_compute. reflexivity. Qed.

(** Claim C4, amended.  When the read reports EAGAIN or the end of the
    input and the decoder accepts the packet, the loop makes one drain
    pass, releases the packet and ends, for both signals alike: the
    iterations left in the script are not run. *)
Theorem drain_signal_ends_loop
  (idx : Z) (it : Iter) (rest : list Iter) (res res' : bool) (s s1 : State) :
  interruption it = false ->
  av_read_frame it = AV.AVERROR AV.EAGAIN \/ av_read_frame it = AV.AVERROR_EOF ->
  0 <= avcodec_send_packet it ->
  receive_loop (avcodec_receive_frame it) res
    (after s [AvReadFrame (av_read_frame it);
              AvcodecSendPacket (avcodec_send_packet it)]) = Ok (Some res') s1 ->
  decode_loop idx (it :: rest) res s = Ok (Some res') (after s1 [AvPacketUnref]).
Proof.
  intros Hint Hread Hsend Hdrain. simpl. rewrite Hint.
  assert (Hsig : is_drain_signal (av_read_frame it) = true).
  { unfold is_drain_signal. destruct Hread as [-> | ->]; reflexivity. }
  rewrite bind_event, Hsig. simpl. rewrite andb_false_r, orb_true_r.
  rewrite bind_event, after_after. simpl.
  destruct (Z.ltb_spec (avcodec_send_packet it) 0) as [Hneg|_]; [lia|].
  unfold bind at 1. rewrite Hdrain. reflexivity.
Qed.

(** Witness of C4: the read reports EAGAIN. *)
Lemma drain_signal_ends_loop_witness :
  interruption iter_starved = false /\
  (av_read_frame iter_starved = AV.AVERROR AV.EAGAIN \/
   av_read_frame iter_starved = AV.AVERROR_EOF) /\
  0 <= avcodec_send_packet iter_starved /\
  decode_loop 0 (iter_starved :: [iter_frame; iter_eof]) false s0
  = Ok (Some false)
       (after (after s0 [AvReadFrame (AV.AVERROR AV.EAGAIN); AvcodecSendPacket 0;
                         AvcodecReceiveFrame (AV.AVERROR AV.EAGAIN)])
          [AvPacketUnref]).
Proof.
  assert (H3 : 0 <= avcodec_send_packet iter_starved) by (vm_compute; discriminate).
  split; [reflexivity|]. split; [left; reflexivity|]. split; [exact H3|].
  apply (drain_signal_ends_loop 0 iter_starved [iter_frame; iter_eof] false false s0);
    [reflexivity | left; reflexivity | exact H3 | vm_compute; reflexivity].
Defined.

(** ** C5: a send that reports EAGAIN *)

(** Claim C5.  When avcodec_send_packet reports EAGAIN for a packet of the
    selected stream, the loop goes on with the next iteration, once, and
    the only calls of the iteration are the read and the send:
    av_packet_unref is not called, the reference of the packet is not
    released. *)
Theorem send_eagain_skips_unref
  (idx : Z) (it : Iter) (rest : list Iter) (res : bool) (s : State) :
  interruption it = false ->
  0 <= av_read_frame it ->
  stream_index it = idx ->
  avcodec_send_packet it = AV.AVERROR AV.EAGAIN ->
  decode_loop idx (it :: rest) res s
    = decode_loop idx rest res
        (after s [AvReadFrame (av_read_frame it);
                  AvcodecSendPacket (AV.AVERROR AV.EAGAIN)]).
Proof.
  intros Hint Hread Hidx Hsend. simpl. rewrite Hint, bind_event.
  destruct (Z.ltb_spec (av_read_frame it) 0) as [Hneg|_]; [lia|]. simpl.
  rewrite Hidx, Z.eqb_refl. simpl.
  rewrite bind_event, after_after, Hsend. reflexivity.
Qed.

(** Witness of C5: the decoder refuses a packet of stream 0. *)
Lemma send_eagain_skips_unref_witness :
  interruption iter_refused = false /\
  0 <= av_read_frame iter_refused /\
  stream_index iter_refused = 0 /\
  avcodec_send_packet iter_refused = AV.AVERROR AV.EAGAIN /\
  decode_loop 0 (iter_refused :: [iter_interrupted]) false s0
  = decode_loop 0 [iter_interrupted] false
      (after s0 [AvReadFrame (av_read_frame iter_refused);
                 AvcodecSendPacket (AV.AVERROR AV.EAGAIN)]).
Proof.
  assert (H2 : 0 <= av_read_frame iter_refused) by (vm_compute; discriminate).
  split; [reflexivity|]. split; [exact H2|]. split; [reflexivity|].
  split; [reflexivity|].
  apply (send_eagain_skips_unref 0 iter_refused [iter_interrupted] false s0);
    [reflexivity | exact H2 | reflexivity | reflexivity].
Defined.

(** On that script the whole run contains no av_packet_unref. *)
Example send_eagain_leaves_packet :
  exists s',
    decode_loop 0 [iter_refused; iter_interrupted] false s0 = Ok (Some false) s' /\
    trace s' = [AvReadFrame 0; AvcodecSendPacket (AV.AVERROR AV.EAGAIN)] /\
    AvPacketUnref ∉ trace s'.
Proof.
  eexists. split; [vm_compute; reflexivity|]. split; [reflexivity|].
  cbn [trace]. rewrite !not_elem_of_cons.
  split; [discriminate|]. split; [discriminate|]. apply not_elem_of_nil.
Qed.

(** ** C6: the selected stream *)

(** Claim C6.  The stream selection goes through all the streams and does
    not fault; its result is -1 when no stream opens, and otherwise the
    index of a stream that opens and after which no stream opens: the last
    one wins. *)
Theorem h264VideoStreamIndex_last_opened (ss : list Stream) (s : State) :
  Z.of_nat (length ss) <= 2 ^ 31 ->
  exists idx s',
    h264VideoStreamIndex ss s = Ok idx s' /\
    ((idx = -1 /\ Forall (fun st => opens st = false) ss) \/
     (exists k st,
        idx = Z.of_nat k /\ ss !! k = Some st /\ opens st = true /\
        forall j st', (k < j)%nat -> ss !! j = Some st' -> opens st' = false)).
Proof.
  intros Hlen. unfold h264VideoStreamIndex.
  destruct (stream_loop_last ss 0 (-1) s) as (idx & s' & Hrun & Hres); [lia | lia |].
  exists idx, s'. split; [exact Hrun|].
  destruct Hres as [H | (k & st & Hidx & H)]; [left; exact H|].
  right. exists k, st. split; [lia | exact H].
Qed.

(** Witness of C6: two video streams that open, an audio stream between
    them and a video stream that does not open after them. *)
Lemma h264VideoStreamIndex_last_opened_witness :
  Z.of_nat (length streams3) <= 2 ^ 31 /\
  exists idx s',
    h264VideoStreamIndex streams3 s0 = Ok idx s' /\
    ((idx = -1 /\ Forall (fun st => opens st = false) streams3) \/
     (exists k st,
        idx = Z.of_nat k /\ streams3 !! k = Some st /\ opens st = true /\
        forall j st', (k < j)%nat -> streams3 !! j = Some st' -> opens st' = false)).
Proof.
  split; [vm_compute; discriminate|].
  apply (h264VideoStreamIndex_last_opened streams3 s0). vm_compute. discriminate.
Defined.

(** There the result is 2, the second of the two; with no stream that
    opens it is -1. *)
Example h264VideoStreamIndex_streams3 :
  h264VideoStreamIndex streams3 s0
    = Ok 2 (state_of (h264VideoStreamIndex streams3 s0)) /\
  h264VideoStreamIndex [stream_audio; stream_unopened] s0
    = Ok (-1) (state_of (h264VideoStreamIndex [stream_audio; stream_unopened] s0)).
Proof. split; vm_compute; reflexivity. Qed.

(** ** C7: what the byte source returns *)

(** Claim C7.  With a positive buffer size and a connection that reports
    counts of bytes, [read_packet] does not fault and never returns 0: it
    returns -1, or a positive count that is the minimum of a count of
    available bytes it was told and the buffer size; as long as no byte is
    available and nothing fails it stays in its wait loop. *)
Theorem read_packet_never_zero (c : Adb.Conn) (buf_size : Z) (s : State) :
  0 < buf_size < 2 ^ 31 ->
  0 <= Adb.bytesAvailable0 c ->
  Forall (fun p => 0 <= Adb.bytesAvailable p) (Adb.polls c) ->
  exists r s',
    read_packet c buf_size s = Ok r s' /\
    match r with
    | Some n =>
        n = -1 \/
        (exists avail,
           avail ∈ Adb.bytesAvailable0 c :: map Adb.bytesAvailable (Adb.polls c) /\
           0 < avail /\ n = Z.min avail buf_size /\ 0 < n)
    | None => Adb.bytesAvailable0 c = 0
    end /\
    (Adb.bytesAvailable0 c = 0 -> Forall still_waiting (Adb.polls c) -> r = None).
Proof.
  intros Hbuf Havail0 Hpolls. unfold read_packet.
  assert (Hgot : forall len s1,
    len ∈ Adb.bytesAvailable0 c :: map Adb.bytesAvailable (Adb.polls c) ->
    0 < len ->
    exists r s',
      (let len0 := if len >? buf_size then buf_size else len in
       exec event (AdbRead len0);
       if negb (Adb.read c) then ret (Some (-1)) else ret (Some (to_int len0))) s1
      = Ok r s' /\
      exists n, r = Some n /\
      (n = -1 \/
       (exists avail,
          avail ∈ Adb.bytesAvailable0 c :: map Adb.bytesAvailable (Adb.polls c) /\
          0 < avail /\ n = Z.min avail buf_size /\ 0 < n))).
  { intros len s1 Hin Hpos. cbv zeta. rewrite bind_event.
    destruct (Adb.read c); simpl.
    - eexists _, _. split; [reflexivity|]. eexists. split; [reflexivity|].
      right. exists len. split; [exact Hin|]. split; [exact Hpos|].
      destruct (Z.gtb_spec len buf_size).
      + rewrite to_int_small by lia. lia.
      + rewrite to_int_small by lia. lia.
    - eexists _, _. split; [reflexivity|]. eexists. split; [reflexivity|].
      left; reflexivity. }
  destruct (Z.eqb_spec (Adb.bytesAvailable0 c) 0) as [Hz|Hnz].
  - unfold bind at 1.
    destruct (wait_loop_result (Adb.polls c) s) as (w & s1 & Hrun & Hw).
    rewrite Hrun. destruct w as [len|r|].
    + destruct Hw as [Hin Hne].
      assert (Hpos : 0 < len).
      { apply list_elem_of_fmap in Hin. destruct Hin as (p & -> & Hp).
        rewrite Forall_forall in Hpolls. specialize (Hpolls p Hp). lia. }
      destruct (Hgot len s1 (list_elem_of_further _ _ _ Hin) Hpos) as (r & s' & Hr & n & -> & Hn).
      exists (Some n), s'. split; [exact Hr|]. split; [exact Hn|].
      intros _ Hall. rewrite (wait_loop_blocked _ _ Hall) in Hrun. discriminate Hrun.
    + subst r. exists (Some (-1)), s1. split; [reflexivity|].
      split; [left; reflexivity|].
      intros _ Hall. rewrite (wait_loop_blocked _ _ Hall) in Hrun. discriminate Hrun.
    + exists None, s1. split; [reflexivity|]. split; [exact Hz|]. reflexivity.
  - unfold bind at 1. unfold ret at 1.
    destruct (Hgot (Adb.bytesAvailable0 c) s (list_elem_of_here _ _))
      as (r & s' & Hr & n & -> & Hn); [lia|].
    exists (Some n), s'. split; [exact Hr|]. split; [exact Hn|].
    intros Hz. contradiction.
Qed.

(** Witness of C7: a time-out, then 10000 bytes arrive. *)
Lemma read_packet_never_zero_witness :
  0 < 8192 < 2 ^ 31 /\
  0 <= Adb.bytesAvailable0 conn_data /\
  Forall (fun p => 0 <= Adb.bytesAvailable p) (Adb.polls conn_data) /\
  exists r s',
    read_packet conn_data 8192 s0 = Ok r s' /\
    match r with
    | Some n =>
        n = -1 \/
        (exists avail,
           avail ∈ Adb.bytesAvailable0 conn_data
                   :: map Adb.bytesAvailable (Adb.polls conn_data) /\
           0 < avail /\ n = Z.min avail 8192 /\ 0 < n)
    | None => Adb.bytesAvailable0 conn_data = 0
    end /\
    (Adb.bytesAvailable0 conn_data = 0 ->
     Forall still_waiting (Adb.polls conn_data) -> r = None).
Proof.
  assert (H1 : 0 < 8192 < 2 ^ 31) by (split; reflexivity).
  assert (H2 : 0 <= Adb.bytesAvailable0 conn_data) by (vm_compute; discriminate).
  assert (H3 : Forall (fun p => 0 <= Adb.bytesAvailable p) (Adb.polls conn_data)).
  { repeat constructor; vm_compute; discriminate. }
  split; [exact H1|]. split; [exact H2|]. split; [exact H3|].
  exact (read_packet_never_zero conn_data 8192 s0 H1 H2 H3).
Defined.

(** There the callback returns the buffer size. *)
Example read_packet_conn_data :
  exists s', read_packet conn_data 8192 s0 = Ok (Some 8192) s'.
Proof. eexists. vm_compute. reflexivity. Qed.

(** ** C8: interruption *)

(** Claim C8.  If the interruption flag is set when the decode loop is
    entered, [h264Loop] emits no frame, returns [false] and its teardown
    completes; in any iteration that finds the flag set the decode loop
    ends at once with the state unchanged, and the teardown that follows
    emits no frame; the snapshot loop ends in the same way. *)
Theorem interruption_stops_frames
  (w : World) (s : State) (it : Iter) (rest : list Iter)
  (idx : Z) (res : bool) (s1 : State) (sh : Shot) (shs : list Shot) :
  idle s ->
  iters w = it :: rest ->
  interruption it = true ->
  shot_interruption sh = true ->
  (exists s' new,
     h264Loop w s = Ok (Some false) s' /\ trace s' = trace s ++ new /\
     frames new = [] /\ torn_down s') /\
  decode_loop idx (it :: rest) res s1 = Ok (Some res) s1 /\
  (forall s2, h264Exit s1 = Ok tt s2 -> frames (trace s2) = frames (trace s1)) /\
  nativeLoop (sh :: shs) s1 = Ok (Some tt) s1.
Proof.
  intros Hidle Hits Hint Hshot.
  assert (Hloop : forall i r0 s0, decode_loop i (it :: rest) r0 s0 = Ok (Some r0) s0).
  { intros i r0 s0. simpl. rewrite Hint. reflexivity. }
  split; [|split; [apply Hloop|split]].
  - unfold h264Loop. unfold bind at 1.
    destruct (h264Init_ok (probe w) s Hidle) as (ok & s2 & Hinit & Hs2).
    rewrite Hinit.
    destruct (silent_h264Init _ _ _ _ Hinit) as (_ & n1 & Ht1 & Hf1).
    assert (Hquit : forall (s3 : State) n3,
               session_ok s3 -> trace s3 = trace s ++ n3 -> frames n3 = [] ->
               exists s' new,
                 (exec h264Exit; ret (Some false)) s3 = Ok (Some false) s' /\
                 trace s' = trace s ++ new /\ frames new = [] /\ torn_down s').
    { intros s3 n3 Hs3 Ht3 Hf3. unfold bind.
      destruct (h264Exit_ok s3 Hs3) as (s4 & Hexit & Hdown & Ht4).
      rewrite Hexit. exists s4, n3.
      split; [reflexivity|]. split; [congruence|]. split; assumption. }
    destruct ok; simpl; [|exact (Hquit s2 n1 Hs2 Ht1 Hf1)].
    unfold bind at 1. unfold h264VideoStreamIndex.
    destruct (stream_loop_ok (streams w) 0 (-1) s2 Hs2) as (i & s3 & Hsel & Hs3).
    rewrite Hsel.
    destruct (silent_stream_loop _ _ _ _ _ _ Hsel) as (_ & n2 & Ht2 & Hf2).
    assert (Ht12 : trace s3 = trace s ++ (n1 ++ n2))
      by (rewrite Ht2, Ht1, <- app_assoc; reflexivity).
    assert (Hf12 : frames (n1 ++ n2) = [])
      by (rewrite frames_app, Hf1, Hf2; reflexivity).
    destruct (i =? -1); [exact (Hquit s3 _ Hs3 Ht12 Hf12)|].
    unfold bind at 1. rewrite Hits, Hloop.
    exact (Hquit s3 _ Hs3 Ht12 Hf12).
  - intros s2 Hexit.
    destruct (silent_h264Exit _ _ _ Hexit) as (_ & new & Ht & Hf).
    rewrite Ht, frames_app, Hf, app_nil_r. reflexivity.
  - simpl. rewrite Hshot. reflexivity.
Qed.

(** Witness of C8: the flag is set before the first iteration. *)
Lemma interruption_stops_frames_witness :
  idle s0 /\
  iters world_interrupted = iter_interrupted :: [iter_frame] /\
  interruption iter_interrupted = true /\
  shot_interruption shot_interrupted = true /\
  (exists s' new,
     h264Loop world_interrupted s0 = Ok (Some false) s' /\
     trace s' = trace s0 ++ new /\ frames new = [] /\ torn_down s') /\
  decode_loop 0 (iter_interrupted :: [iter_frame]) true session1
    = Ok (Some true) session1 /\
  (forall s2, h264Exit session1 = Ok tt s2 ->
              frames (trace s2) = frames (trace session1)) /\
  nativeLoop (shot_interrupted :: [shot_awake]) session1 = Ok (Some tt) session1.
Proof.
  split; [apply idle_new_thread|]. split; [reflexivity|]. split; [reflexivity|].
  split; [reflexivity|].
  apply (interruption_stops_frames world_interrupted s0 iter_interrupted [iter_frame]
           0 true session1 shot_interrupted [shot_awake]);
    [apply idle_new_thread | reflexivity | reflexivity | reflexivity].
Defined.

(** On that script nothing at all is observed. *)
Example h264Loop_world_interrupted :
  h264Loop world_interrupted s0
  = Ok (Some false) (state_of (h264Loop world_interrupted s0)) /\
  trace (state_of (h264Loop world_interrupted s0)) = [].
Proof. split; vm_compute; reflexivity. Qed.

(** ** C9: the size of the frames *)

(** Counterexample to C9 as stated: configured for 50 x 80, the snapshot
    loop scales a screenshot of 100 x 100 to 50 x 50, in a 32-bit format. *)
Lemma snapshot_frame_not_configured_size :
  let img := Qt.mkQImage 50 50 Qt.Format_RGB32 Qt.Picture in
  nativeLoop [shot_awake] snapshot_thread
    = Ok None (after snapshot_thread [ImageReady img; Msleep 100]) /\
  Qt.width img * Qt.height img
    <> m_imageWidth snapshot_thread * m_imageHeight snapshot_thread /\
  Qt.format img <> Qt.Format_RGB888.
Proof.
  split; [vm_compute; reflexivity|]. split; vm_compute; discriminate.
Qed.

(** Claim C9, amended.  For a positive configured size W x H: every frame
    that [h264Loop] emits, also in a run that ends in a fault, is a W x H
    image in RGB888.  The frames that [nativeLoop] emits are those of the
    rounds it ran, one for each, in order: for a round with the display
    off, the W x H black image in RGB888; for a round with the display on,
    the fetched image scaled to width W, which is a null image or has
    width W and a height within one pixel of W * h / w, where w x h is the
    size of the fetched image: the height follows the fetched image, not
    H. *)
Theorem emitted_frame_sizes (w : World) (shs : list Shot) (s : State) :
  0 < m_imageWidth s ->
  0 < m_imageHeight s ->
  idle s ->
  (exists new,
     trace (state_of (h264Loop w s)) = trace s ++ new /\
     Forall (eq (Qt.mkQImage (m_imageWidth s) (m_imageHeight s)
                   Qt.Format_RGB888 Qt.Picture)) (frames new)) /\
  (exists r n new,
     nativeLoop shs s = Ok r (after s new) /\
     frames new = map (round_frame s) (take n shs)) /\
  (forall sh,
     isScreenAwake sh = false ->
     round_frame s sh
     = Qt.mkQImage (m_imageWidth s) (m_imageHeight s)
         Qt.Format_RGB888 (Qt.Solid Qt.black)) /\
  (forall sh,
     isScreenAwake sh = true ->
     round_frame s sh = Qt.scaledToWidth (m_imageWidth s) (fetch_of (m_videoMode s) sh) /\
     (Qt.isNull (round_frame s sh) = true \/
      (Qt.width (round_frame s sh) = m_imageWidth s /\
       (0 < Qt.width (fetch_of (m_videoMode s) sh) ->
        m_imageWidth s * Qt.height (fetch_of (m_videoMode s) sh)
          - Qt.width (fetch_of (m_videoMode s) sh)
        < Qt.height (round_frame s sh) * Qt.width (fetch_of (m_videoMode s) sh)
        < m_imageWidth s * Qt.height (fetch_of (m_videoMode s) sh)
          + Qt.width (fetch_of (m_videoMode s) sh))))).
Proof.
  intros Hw Hh Hidle. split; [|split; [|split]].
  - destruct (h264Loop_outcome w s Hidle) as (new & Hall & Hout).
    rewrite decoded_frame_size in Hall by assumption.
    exists new. split; [|exact Hall].
    destruct Hout as [(r & s' & Hrun & Ht & _)|(s' & Hrun & Ht & _)];
      rewrite Hrun; exact Ht.
  - destruct (nativeLoop_round_frames shs s) as (r & n & Hrun).
    exists r, n. eexists. split; [exact Hrun|]. apply frames_rounds_of.
  - intros sh Ha. unfold round_frame. rewrite Ha.
    apply placeholder_scaled; assumption.
  - intros sh Ha. unfold round_frame. rewrite Ha.
    split; [reflexivity|]. apply scaledToWidth_size.
Qed.

(** Witness of C9: 50 x 80, in both loops. *)
Lemma emitted_frame_sizes_witness :
  0 < m_imageWidth snapshot_thread /\
  0 < m_imageHeight snapshot_thread /\
  idle snapshot_thread /\
  (exists new,
     trace (state_of (h264Loop world1 snapshot_thread))
     = trace snapshot_thread ++ new /\
     Forall (eq (Qt.mkQImage (m_imageWidth snapshot_thread)
                   (m_imageHeight snapshot_thread) Qt.Format_RGB888 Qt.Picture))
            (frames new)) /\
  (exists r n new,
     nativeLoop [shot_asleep; shot_awake] snapshot_thread
     = Ok r (after snapshot_thread new) /\
     frames new = map (round_frame snapshot_thread) (take n [shot_asleep; shot_awake])) /\
  (forall sh,
     isScreenAwake sh = false ->
     round_frame snapshot_thread sh
     = Qt.mkQImage (m_imageWidth snapshot_thread) (m_imageHeight snapshot_thread)
         Qt.Format_RGB888 (Qt.Solid Qt.black)) /\
  (forall sh,
     isScreenAwake sh = true ->
     round_frame snapshot_thread sh
     = Qt.scaledToWidth (m_imageWidth snapshot_thread)
         (fetch_of (m_videoMode snapshot_thread) sh) /\
     (Qt.isNull (round_frame snapshot_thread sh) = true \/
      (Qt.width (round_frame snapshot_thread sh) = m_imageWidth snapshot_thread /\
       (0 < Qt.width (fetch_of (m_videoMode snapshot_thread) sh) ->
        m_imageWidth snapshot_thread
          * Qt.height (fetch_of (m_videoMode snapshot_thread) sh)
          - Qt.width (fetch_of (m_videoMode snapshot_thread) sh)
        < Qt.height (round_frame snapshot_thread sh)
          * Qt.width (fetch_of (m_videoMode snapshot_thread) sh)
        < m_imageWidth snapshot_thread
          * Qt.height (fetch_of (m_videoMode snapshot_thread) sh)
          + Qt.width (fetch_of (m_videoMode snapshot_thread) sh))))).
Proof.
  split; [reflexivity|]. split; [reflexivity|]. split; [apply idle_new_thread|].
  apply (emitted_frame_sizes world1 [shot_asleep; shot_awake] snapshot_thread);
    [reflexivity | reflexivity | apply idle_new_thread].
Defined.

(** On those scripts: one decoded frame of 50 x 80; a black frame of
    50 x 80 for the round with the display off, and the screenshot of
    100 x 100 scaled to 50 x 50 for the round with the display on. *)
Example emitted_frame_sizes_runs :
  frames (trace (state_of (h264Loop world1 snapshot_thread)))
  = [Qt.mkQImage 50 80 Qt.Format_RGB888 Qt.Picture] /\
  frames (trace (state_of (nativeLoop [shot_asleep; shot_awake] snapshot_thread)))
  = [Qt.mkQImage 50 80 Qt.Format_RGB888 (Qt.Solid Qt.black);
     Qt.mkQImage 50 50 Qt.Format_RGB32 Qt.Picture].
Proof. split; vm_compute; reflexivity. Qed.

(** ** C10: the snapshot loop in a mode without a fetch *)

(** Claim C10.  When the mode is none of the three still-image modes: an
    iteration that finds the display on returns from the snapshot loop
    with nothing emitted; as long as the display is off every iteration
    emits the black W x H placeholder and sleeps, and the loop goes on; the
    loop returns in the first iteration that finds the display on. *)
Theorem nativeLoop_unknown_mode
  (s : State) (sleeping : list Shot) (sh : Shot) (rest : list Shot) :
  m_videoMode s <> NativeJpg ->
  m_videoMode s <> NativeRaw ->
  m_videoMode s <> NativePng ->
  0 < m_imageWidth s -> 0 < m_imageHeight s ->
  Forall asleep sleeping ->
  shot_interruption sh = false ->
  isScreenAwake sh = true ->
  nativeLoop (sh :: rest) s = Ok (Some tt) s /\
  nativeLoop sleeping s
    = Ok None (after s (placeholder_rounds s (length sleeping))) /\
  nativeLoop (sleeping ++ sh :: rest) s
    = Ok (Some tt) (after s (placeholder_rounds s (length sleeping))).
Proof.
  intros Hjpg Hraw Hpng Hw Hh Hall Hi Ha.
  assert (Hawake : forall s1, m_videoMode s1 = m_videoMode s ->
            nativeLoop (sh :: rest) s1 = Ok (Some tt) s1).
  { intros s1 Hm. simpl. rewrite Hi, !bind_get, Ha, Hm.
    destruct (m_videoMode s); try contradiction; reflexivity. }
  split; [apply Hawake; reflexivity|]. split.
  - rewrite <- (app_nil_r sleeping) at 1.
    rewrite nativeLoop_asleep by assumption. reflexivity.
  - rewrite nativeLoop_asleep by assumption. apply Hawake. destruct s; reflexivity.
Qed.

(** Witness of C10: the mode FastH264, the display off twice, then on. *)
Lemma nativeLoop_unknown_mode_witness :
  m_videoMode s0 <> NativeJpg /\
  m_videoMode s0 <> NativeRaw /\
  m_videoMode s0 <> NativePng /\
  0 < m_imageWidth s0 /\ 0 < m_imageHeight s0 /\
  Forall asleep [shot_asleep; shot_asleep] /\
  shot_interruption shot_awake = false /\
  isScreenAwake shot_awake = true /\
  nativeLoop (shot_awake :: [shot_asleep]) s0 = Ok (Some tt) s0 /\
  nativeLoop [shot_asleep; shot_asleep] s0
    = Ok None (after s0 (placeholder_rounds s0 (length [shot_asleep; shot_asleep]))) /\
  nativeLoop ([shot_asleep; shot_asleep] ++ shot_awake :: [shot_asleep]) s0
    = Ok (Some tt) (after s0 (placeholder_rounds s0 (length [shot_asleep; shot_asleep]))).
Proof.
  assert (Hs : Forall asleep [shot_asleep; shot_asleep])
    by (repeat constructor; exact asleep_shot_asleep).
  split; [discriminate|]. split; [discriminate|]. split; [discriminate|].
  split; [reflexivity|]. split; [reflexivity|]. split; [exact Hs|].
  split; [reflexivity|]. split; [reflexivity|].
  apply (nativeLoop_unknown_mode s0 [shot_asleep; shot_asleep] shot_awake [shot_asleep]);
    [discriminate | discriminate | discriminate | reflexivity | reflexivity
    | exact Hs | reflexivity | reflexivity].
Defined.

(** The frames of those two rounds. *)
Example nativeLoop_unknown_mode_asleep :
  frames (placeholder_rounds s0 2)
  = [Qt.mkQImage 480 800 Qt.Format_RGB888 (Qt.Solid 0);
     Qt.mkQImage 480 800 Qt.Format_RGB888 (Qt.Solid 0)].
Proof. reflexivity. Qed.

(** * Further properties *)

(** ** The byte source *)

Lemma clamp_min len buf_size :
  (if len >? buf_size then buf_size else len) = Z.min len buf_size.
Proof. destruct (Z.gtb_spec len buf_size); lia. Qed.

(** Property X1.  When bytes are already buffered as the byte source is
    called with a capacity between 1 and 2^31 - 1, it neither waits nor
    reconnects: its one action is a read of min(available, capacity)
    bytes, and it returns that number, or -1 when the read fails. *)
Theorem read_packet_fast_path (c : Adb.Conn) (buf_size : Z) (s : State) :
  0 < Adb.bytesAvailable0 c ->
  0 < buf_size < 2 ^ 31 ->
  read_packet c buf_size s
  = Ok (Some (if Adb.read c then Z.min (Adb.bytesAvailable0 c) buf_size else -1))
       (after s [AdbRead (Z.min (Adb.bytesAvailable0 c) buf_size)]).
Proof.
  intros Havail Hbuf. unfold read_packet.
  destruct (Z.eqb_spec (Adb.bytesAvailable0 c) 0) as [Hz|_]; [lia|].
  unfold bind at 1. unfold ret at 1. rewrite clamp_min, bind_event.
  destruct (Adb.read c); simpl; [|reflexivity].
  rewrite to_int_small by lia. reflexivity.
Qed.

Lemma read_packet_fast_path_witness :
  0 < Adb.bytesAvailable0 conn_ready /\
  0 < 8192 < 2 ^ 31 /\
  read_packet conn_ready 8192 s0 = Ok (Some 8192) (after s0 [AdbRead 8192]).
Proof.
  assert (H1 : 0 < Adb.bytesAvailable0 conn_ready) by reflexivity.
  assert (H2 : 0 < 8192 < 2 ^ 31) by (split; reflexivity).
  split; [exact H1|]. split; [exact H2|].
  exact (read_packet_fast_path conn_ready 8192 s0 H1 H2).
Defined.

Lemma timeout_then_waiting : Forall still_waiting [poll_error Qt.SocketTimeoutError].
Proof. constructor; [exact still_waiting_timeout|constructor]. Qed.

(** Property X2.  With nothing buffered, after any number of rounds in
    which nothing arrived and nothing failed, a round that finds the
    connection up and the interruption flag set makes the byte source
    return -1 whatever the wait answered, also when bytes are ready: it
    reads nothing and writes no diagnostic, the worker is left as it
    was. *)
Theorem read_packet_interrupted
  (c : Adb.Conn) (earlier : list Adb.Poll) (p : Adb.Poll) (later : list Adb.Poll)
  (buf_size : Z) (s : State) :
  Adb.bytesAvailable0 c = 0 ->
  Adb.polls c = earlier ++ p :: later ->
  Forall still_waiting earlier ->
  Adb.isConnected p = true ->
  Adb.isInterruptionRequested p = true ->
  read_packet c buf_size s = Ok (Some (-1)) s.
Proof.
  intros Hz Hpolls Hwait Hc Hi. unfold read_packet. rewrite Hz, Hpolls. simpl.
  unfold bind at 1. rewrite wait_loop_skip by exact Hwait. simpl.
  unfold bind at 1. rewrite Hc. simpl. rewrite Hi. reflexivity.
Qed.

Lemma read_packet_interrupted_witness :
  Adb.bytesAvailable0 conn_interrupted = 0 /\
  Adb.polls conn_interrupted = [poll_error Qt.SocketTimeoutError] ++ poll_interrupted :: [] /\
  Forall still_waiting [poll_error Qt.SocketTimeoutError] /\
  Adb.isConnected poll_interrupted = true /\
  Adb.isInterruptionRequested poll_interrupted = true /\
  read_packet conn_interrupted 8192 s0 = Ok (Some (-1)) s0.
Proof.
  split; [reflexivity|]. split; [reflexivity|]. split; [exact timeout_then_waiting|].
  split; [reflexivity|]. split; [reflexivity|].
  exact (read_packet_interrupted conn_interrupted [poll_error Qt.SocketTimeoutError]
           poll_interrupted [] 8192 s0 eq_refl eq_refl timeout_then_waiting
           eq_refl eq_refl).
Defined.

Lemma h264Connect_fails p s :
  Adb.connectToDevice p && Adb.send p = false ->
  h264Connect p s
  = Ok false
       (after s (if Adb.connectToDevice p
                 then [AdbSend (m_imageWidth s) (m_imageHeight s); Log LogExecFailed]
                 else [])).
Proof.
  intros Hfail. unfold h264Connect.
  destruct (Adb.connectToDevice p); simpl in *.
  - rewrite Hfail, !bind_get, bind_event. cbn [negb].
    rewrite bind_qDebug, after_after. reflexivity.
  - rewrite after_nil. reflexivity.
Qed.

(** Property X3.  With nothing buffered, after any number of rounds in
    which nothing arrived and nothing failed, a round that finds the
    connection down and cannot bring it up (the device is not reached, or
    it refuses the screenrecord command) makes the byte source return -1
    without waiting: when the device was reached, the command was sent
    with the configured size and its failure logged; otherwise nothing
    happened. *)
Theorem read_packet_reconnect_fails
  (c : Adb.Conn) (earlier : list Adb.Poll) (p : Adb.Poll) (later : list Adb.Poll)
  (buf_size : Z) (s : State) :
  Adb.bytesAvailable0 c = 0 ->
  Adb.polls c = earlier ++ p :: later ->
  Forall still_waiting earlier ->
  Adb.isConnected p = false ->
  Adb.connectToDevice p && Adb.send p = false ->
  read_packet c buf_size s
  = Ok (Some (-1))
       (after s (if Adb.connectToDevice p
                 then [AdbSend (m_imageWidth s) (m_imageHeight s); Log LogExecFailed]
                 else [])).
Proof.
  intros Hz Hpolls Hwait Hc Hfail. unfold read_packet. rewrite Hz, Hpolls. simpl.
  unfold bind at 1. rewrite wait_loop_skip by exact Hwait. simpl.
  unfold bind at 1. rewrite Hc, (h264Connect_fails p s Hfail). reflexivity.
Qed.

Lemma read_packet_reconnect_fails_witness :
  Adb.bytesAvailable0 conn_down = 0 /\
  Adb.polls conn_down = [poll_error Qt.SocketTimeoutError] ++ poll_down :: [] /\
  Forall still_waiting [poll_error Qt.SocketTimeoutError] /\
  Adb.isConnected poll_down = false /\
  Adb.connectToDevice poll_down && Adb.send poll_down = false /\
  read_packet conn_down 8192 s0
  = Ok (Some (-1)) (after s0 [AdbSend 480 800; Log LogExecFailed]).
Proof.
  split; [reflexivity|]. split; [reflexivity|]. split; [exact timeout_then_waiting|].
  split; [reflexivity|]. split; [reflexivity|].
  exact (read_packet_reconnect_fails conn_down [poll_error Qt.SocketTimeoutError]
           poll_down [] 8192 s0 eq_refl eq_refl timeout_then_waiting
           eq_refl eq_refl).
Defined.

Lemma h264Connect_after p s :
  exists b new,
    h264Connect p s = Ok b (after s new) /\
    Forall (fun e => is_connection_event e = true) new.
Proof.
  unfold h264Connect.
  destruct (Adb.connectToDevice p); simpl.
  - rewrite !bind_get, bind_event.
    destruct (Adb.send p); simpl; rewrite bind_qDebug, after_after;
      eexists _, _; (split; [reflexivity|]); repeat constructor.
  - exists false, []. rewrite after_nil. split; [reflexivity|constructor].
Qed.

Lemma wait_loop_after ps : forall s,
  exists w new,
    wait_loop ps s = Ok w (after s new) /\
    Forall (fun e => is_connection_event e = true) new.
Proof.
  induction ps as [|p rest IH]; intros s; simpl.
  - exists Blocked, []. rewrite after_nil. split; [reflexivity|constructor].
  - assert (Hup : exists up n1,
      (if Adb.isConnected p then ret true else h264Connect p) s = Ok up (after s n1) /\
      Forall (fun e => is_connection_event e = true) n1).
    { destruct (Adb.isConnected p); [|apply h264Connect_after].
      exists true, []. rewrite after_nil. split; [reflexivity|constructor]. }
    destruct Hup as (up & n1 & Hup & Hn1). unfold bind at 1. rewrite Hup.
    assert (Hlater : exists w new,
      wait_loop rest (after s n1) = Ok w (after s new) /\
      Forall (fun e => is_connection_event e = true) new).
    { destruct (IH (after s n1)) as (w & n2 & Hrun & Hn2).
      exists w, (n1 ++ n2). rewrite Hrun, after_after.
      split; [reflexivity|]. apply Forall_app. split; assumption. }
    destruct up; simpl; [|exists (Return (-1)), n1; split; [reflexivity|exact Hn1]].
    destruct (Adb.isInterruptionRequested p);
      [exists (Return (-1)), n1; split; [reflexivity|exact Hn1]|].
    destruct (Adb.waitForReadyRead p); simpl.
    + destruct (Adb.bytesAvailable p =? 0); [exact Hlater|].
      eexists _, n1. split; [reflexivity|exact Hn1].
    + destruct (Qt.is_remote_closed (Adb.error p)).
      { rewrite bind_qDebug, after_after. eexists (Return (-1)), _.
        split; [reflexivity|].
        apply Forall_app. split; [exact Hn1|repeat constructor]. }
      destruct (Qt.is_timeout (Adb.error p)); simpl; [exact Hlater|].
      rewrite bind_qDebug, after_after. eexists (Return (-1)), _.
      split; [reflexivity|].
      apply Forall_app. split; [exact Hn1|repeat constructor].
Qed.

(** Property X4.  Whatever the connection does, the byte source does not
    fault (it returns, or is still waiting when the script ends) and
    changes nothing of the worker but the trace, to which it adds only
    connection events: commands sent, reads and diagnostics.  It emits no
    frame, allocates and frees nothing, and touches neither the decoder
    nor the configuration. *)
Theorem read_packet_only_connection (c : Adb.Conn) (buf_size : Z) (s : State) :
  exists r new,
    read_packet c buf_size s = Ok r (after s new) /\
    Forall (fun e => is_connection_event e = true) new.
Proof.
  unfold read_packet.
  assert (Hw : exists w n1,
    (if Adb.bytesAvailable0 c =? 0 then wait_loop (Adb.polls c)
     else ret (Got (Adb.bytesAvailable0 c))) s = Ok w (after s n1) /\
    Forall (fun e => is_connection_event e = true) n1).
  { destruct (Adb.bytesAvailable0 c =? 0); [apply wait_loop_after|].
    eexists _, []. rewrite after_nil. split; [reflexivity|constructor]. }
  destruct Hw as (w & n1 & Hw & Hn1). unfold bind at 1. rewrite Hw.
  destruct w as [len|r|].
  - cbv zeta. rewrite bind_event, after_after.
    destruct (Adb.read c); simpl; eexists _, _; (split; [reflexivity|]);
      (apply Forall_app; split; [exact Hn1|repeat constructor]).
  - exists (Some r), n1. split; [reflexivity|exact Hn1].
  - exists None, n1. split; [reflexivity|exact Hn1].
Qed.

(** ** Probing *)

(** Property X5.  Whatever state it is called in, and whatever FFmpeg
    answers, [h264Init] does not fault; it returns [true] exactly when
    both avformat_open_input and avformat_find_stream_info succeed; it
    leaves both frames and the I/O context allocated; the format context
    is NULL afterwards exactly when avformat_open_input failed (which
    frees it), the RGB picture is NULL exactly when av_image_alloc failed
    (its result is not tested), and the scaler and the decoder context
    are left as they were. *)
Theorem h264Init_result (p : Probe) (s : State) :
  exists s',
    h264Init p s
    = Ok ((0 <=? avformat_open_input p) && (0 <=? avformat_find_stream_info p)) s' /\
    m_frame s' <> None /\ m_rgbFrame s' <> None /\ fmt_pb s' <> None /\
    (m_avFormat s' = None <-> avformat_open_input p < 0) /\
    (rgb_data0 s' = None <-> av_image_alloc_ok p = false) /\
    m_swsContext s' = m_swsContext s /\ m_codecCtx s' = m_codecCtx s.
Proof.
  rewrite !(Z.leb_antisym _ 0).
  destruct s. unfold h264Init. unfold_m. unfold free.
  hsimpl.
  destruct (av_image_alloc_ok p); hsimpl;
    destruct (Z.ltb_spec (avformat_open_input p) 0); hsimpl.
  all: free_ok; hsimpl.
  all: try (destruct (avformat_find_stream_info p <? 0); hsimpl).
  all: eexists; (split; [reflexivity|]); hsimpl.
  all: repeat split; try discriminate; try reflexivity; intros; try lia;
    try discriminate.
Qed.

(** Property X6.  When no session is open and the probe fails (either
    avformat_open_input or avformat_find_stream_info reports an error),
    [h264Loop] returns [false] with the session torn down.  The last thing
    it does that the outside sees is the diagnostic of the first of the
    two calls that failed, and whatever came before it is a command, a
    read or a diagnostic of the connection, as the byte source produces
    them while FFmpeg probes: no packet is read or sent to a decoder, no
    frame is emitted, and the teardown adds nothing. *)
Theorem h264Loop_probe_fails (w : World) (s : State) :
  idle s ->
  avformat_open_input (probe w) < 0 \/ avformat_find_stream_info (probe w) < 0 ->
  exists s' new,
    h264Loop w s = Ok (Some false) s' /\
    trace s' = trace s ++ new /\
    last new
    = Some (Log (if avformat_open_input (probe w) <? 0
                 then LogOpenInputFailed (avformat_open_input (probe w))
                 else LogStreamInfoFailed (avformat_find_stream_info (probe w)))) /\
    Forall (fun e => is_connection_event e = true) new /\
    torn_down s'.
Proof.
  intros (Hfresh & Hsws & Hctx) Hfail.
  destruct s; hsimpl; subst.
  unfold h264Loop, h264Init, h264Exit. unfold_m. unfold free.
  hsimpl.
  destruct (av_image_alloc_ok (probe w)); hsimpl;
    destruct (Z.ltb_spec (avformat_open_input (probe w)) 0); hsimpl.
  all: free_ok; hsimpl.
  all: try (destruct (Z.ltb_spec (avformat_find_stream_info (probe w)) 0); hsimpl).
  all: try (exfalso; lia).
  all: free_ok; eexists _, [_]; (split; [reflexivity|]); hsimpl.
  all: split; [reflexivity|]; split; [reflexivity|].
  all: split; [repeat constructor|].
  all: unfold torn_down; hsimpl; repeat split; reflexivity.
Qed.

Lemma h264Loop_probe_fails_witness :
  idle s0 /\
  (avformat_open_input (probe world_probe_fails) < 0 \/
   avformat_find_stream_info (probe world_probe_fails) < 0) /\
  exists s' new,
    h264Loop world_probe_fails s0 = Ok (Some false) s' /\
    trace s' = trace s0 ++ new /\
    last new = Some (Log (LogOpenInputFailed (-1))) /\
    Forall (fun e => is_connection_event e = true) new /\
    torn_down s'.
Proof.
  assert (H2 : avformat_open_input (probe world_probe_fails) < 0 \/
               avformat_find_stream_info (probe world_probe_fails) < 0)
    by (left; reflexivity).
  split; [apply idle_new_thread|]. split; [exact H2|].
  exact (h264Loop_probe_fails world_probe_fails s0 (idle_new_thread _ _ _ _) H2).
Defined.

(** ** The stream selection *)

Lemma stream_loop_untried ss : forall i idx s,
  Forall (fun st => tried st = false) ss ->
  exists s',
    stream_loop i ss idx s = Ok idx s' /\ m_codecCtx s' = m_codecCtx s.
Proof.
  induction ss as [|st rest IH]; intros i idx s Hall; simpl.
  - exists s. split; reflexivity.
  - inversion Hall as [|? ? Hst Hrest]; subst.
    destruct (try_stream_members i st idx s) as (s1 & Hrun & Hctx & _).
    assert (Hop : opens st = false).
    { destruct (opens st) eqn:Hop; [|reflexivity].
      apply tried_of_opens in Hop. congruence. }
    rewrite Hop in Hrun. rewrite Hst in Hctx.
    unfold bind at 1. rewrite Hrun.
    destruct (IH (i + 1) idx s1 Hrest) as (s' & Hrun' & Hctx').
    exists s'. split; [exact Hrun'|congruence].
Qed.

Lemma stream_loop_app pre : forall post i idx s,
  stream_loop i (pre ++ post) idx s
  = (let* x := stream_loop i pre idx in
     stream_loop (i + Z.of_nat (length pre)) post x) s.
Proof.
  induction pre as [|st rest IH]; intros post i idx s.
  - simpl. rewrite Z.add_0_r. reflexivity.
  - cbn [app stream_loop length]. unfold bind.
    destruct (try_stream i st idx s) as [x s1|f s1]; [|reflexivity].
    rewrite IH. unfold bind.
    replace (i + 1 + Z.of_nat (length rest))
      with (i + Z.of_nat (S (length rest))) by lia. reflexivity.
Qed.

(** Property X7.  The decoder context that the selection leaves is that
    of the last stream for which one was allocated (a video stream with a
    decoder), not that of the stream whose index is returned: it is
    non-NULL exactly when that last stream opens.  So when a stream opens
    and a later video stream with a decoder does not, the selection
    returns the index of the earlier stream with the decoder context
    NULL. *)
Theorem selection_decoder_of_last_tried
  (pre : list Stream) (st : Stream) (post : list Stream) (s : State) :
  Z.of_nat (length (pre ++ st :: post)) <= 2 ^ 31 ->
  tried st = true ->
  Forall (fun x => tried x = false) post ->
  exists idx s',
    h264VideoStreamIndex (pre ++ st :: post) s = Ok idx s' /\
    (m_codecCtx s' <> None <-> opens st = true) /\
    (opens st = false -> Exists (fun x => opens x = true) pre ->
     0 <= idx < Z.of_nat (length pre) /\ m_codecCtx s' = None).
Proof.
  intros Hlen Htried Hpost. unfold h264VideoStreamIndex.
  rewrite length_app in Hlen. cbn [length] in Hlen.
  rewrite stream_loop_app. unfold bind at 1.
  destruct (stream_loop_last pre 0 (-1) s) as (idx1 & s1 & Hpre & Hidx1); [lia|lia|].
  rewrite Hpre. cbn [stream_loop]. unfold bind at 1.
  destruct (try_stream_members (0 + Z.of_nat (length pre)) st idx1 s1)
    as (s2 & Hst & Hctx & _).
  rewrite Hst. rewrite Htried in Hctx.
  destruct (stream_loop_untried post (0 + Z.of_nat (length pre) + 1)
              (if opens st then to_int (0 + Z.of_nat (length pre)) else idx1) s2 Hpost)
    as (s3 & Hrun & Hctx3).
  rewrite Hrun. eexists _, s3. split; [reflexivity|].
  rewrite Hctx3, Hctx. split.
  - destruct (opens st); split; intros H; try reflexivity; try discriminate;
      contradiction H; reflexivity.
  - intros Hop Hex. rewrite Hop. split; [|reflexivity].
    destruct Hidx1 as [[_ Hnone]|(k & x & Hk & Hlk & _)].
    + exfalso. rewrite Exists_exists in Hex. destruct Hex as (x & Hin & Hx).
      rewrite Forall_forall in Hnone. specialize (Hnone x Hin). congruence.
    + apply lookup_lt_Some in Hlk. lia.
Qed.

Lemma selection_decoder_of_last_tried_witness :
  Z.of_nat (length ([stream_video] ++ stream_unopened :: [stream_audio])) <= 2 ^ 31 /\
  tried stream_unopened = true /\
  Forall (fun x => tried x = false) [stream_audio] /\
  exists idx s',
    h264VideoStreamIndex ([stream_video] ++ stream_unopened :: [stream_audio]) s0
    = Ok idx s' /\
    (m_codecCtx s' <> None <-> opens stream_unopened = true) /\
    (opens stream_unopened = false -> Exists (fun x => opens x = true) [stream_video] ->
     0 <= idx < Z.of_nat (length [stream_video]) /\ m_codecCtx s' = None).
Proof.
  assert (H1 : Z.of_nat (length ([stream_video] ++ stream_unopened :: [stream_audio]))
               <= 2 ^ 31) by (vm_compute; discriminate).
  assert (H3 : Forall (fun x => tried x = false) [stream_audio])
    by (repeat constructor).
  split; [exact H1|]. split; [reflexivity|]. split; [exact H3|].
  exact (selection_decoder_of_last_tried [stream_video] stream_unopened
           [stream_audio] s0 H1 eq_refl H3).
Defined.

Lemma stream_loop_scaler ss : forall i idx0 s,
  0 <= i -> i + Z.of_nat (length ss) <= 2 ^ 31 ->
  exists idx s',
    stream_loop i ss idx0 s = Ok idx s' /\
    ((idx = idx0 /\ m_swsContext s' = m_swsContext s) \/
     (exists k st,
        idx = i + Z.of_nat k /\ ss !! k = Some st /\ opens st = true /\
        (m_swsContext s' <> None <-> sws_getContext st = true))).
Proof.
  induction ss as [|st rest IH]; intros i idx0 s Hi Hlen; simpl.
  - exists idx0, s. split; [reflexivity|]. left. split; reflexivity.
  - simpl in Hlen.
    destruct (try_stream_members i st idx0 s) as (s1 & Hst & _ & Hsws).
    unfold bind at 1. rewrite Hst.
    destruct (IH (i + 1) (if opens st then to_int i else idx0) s1)
      as (idx & s' & Hrun & Hres); [lia | lia |].
    exists idx, s'. split; [exact Hrun|].
    destruct Hres as [[Hidx Hsame] | (k & st' & Hidx & Hk & Hop & Hscaler)].
    + destruct (opens st) eqn:Hop.
      * right. exists 0%nat, st. rewrite to_int_small in Hidx by lia.
        split; [lia|]. split; [reflexivity|]. split; [exact Hop|].
        rewrite Hsame, Hsws.
        destruct (sws_getContext st); split; intros H; try reflexivity;
          try discriminate; contradiction H; reflexivity.
      * left. split; [exact Hidx|]. congruence.
    + right. exists (S k), st'. split; [lia|]. split; [exact Hk|].
      split; [exact Hop|exact Hscaler].
Qed.

(** Property X8.  For at most 2^31 streams, the selection either returns
    -1 and leaves the scaler as it was, or returns the index of a stream
    that opens, and the scaler is then the one made for that stream:
    non-NULL exactly when sws_getContext succeeded for it, a result the
    code does not test. *)
Theorem selection_scaler_of_selected (ss : list Stream) (s : State) :
  Z.of_nat (length ss) <= 2 ^ 31 ->
  exists idx s',
    h264VideoStreamIndex ss s = Ok idx s' /\
    ((idx = -1 /\ m_swsContext s' = m_swsContext s) \/
     (exists k st,
        idx = Z.of_nat k /\ ss !! k = Some st /\ opens st = true /\
        (m_swsContext s' <> None <-> sws_getContext st = true))).
Proof.
  intros Hlen. unfold h264VideoStreamIndex.
  destruct (stream_loop_scaler ss 0 (-1) s) as (idx & s' & Hrun & Hres); [lia | lia |].
  exists idx, s'. split; [exact Hrun|].
  destruct Hres as [H | (k & st & Hidx & H)]; [left; exact H|].
  right. exists k, st. split; [lia | exact H].
Qed.

Lemma selection_scaler_of_selected_witness :
  Z.of_nat (length streams3) <= 2 ^ 31 /\
  exists idx s',
    h264VideoStreamIndex streams3 s0 = Ok idx s' /\
    ((idx = -1 /\ m_swsContext s' = m_swsContext s0) \/
     (exists k st,
        idx = Z.of_nat k /\ streams3 !! k = Some st /\ opens st = true /\
        (m_swsContext s' <> None <-> sws_getContext st = true))).
Proof.
  assert (H1 : Z.of_nat (length streams3) <= 2 ^ 31) by (vm_compute; discriminate).
  split; [exact H1|]. exact (selection_scaler_of_selected streams3 s0 H1).
Defined.

(** *** Computations that only write diagnostics *)

Section Only.

Context (kind : Event -> bool).

Lemma only_same {A} (m : M A) :
  (forall s a s', m s = Ok a s' -> trace s' = trace s) -> only kind m.
Proof.
  intros Hm s a s' H. exists []. rewrite app_nil_r.
  split; [exact (Hm _ _ _ H)|constructor].
Qed.

Lemma only_ret {A} (a : A) : only kind (ret a).
Proof. apply only_same. intros s a' s' [= <- <-]. reflexivity. Qed.

Lemma only_get {A} (f : State -> A) : only kind (get f).
Proof. apply only_same. intros s a' s' [= <- <-]. reflexivity. Qed.

Lemma only_crash {A} f : only kind (@crash A f).
Proof. intros s a s' H. discriminate H. Qed.

Lemma only_modify f : (forall s, trace (f s) = trace s) -> only kind (modify f).
Proof. intros Hf. apply only_same. intros s a' s' [= <- <-]. apply Hf. Qed.

Lemma only_event e : kind e = true -> only kind (event e).
Proof.
  intros He s a' s' [= <- <-]. exists [e].
  split; [destruct s; reflexivity|]. repeat constructor. exact He.
Qed.

Lemma only_alloc : only kind alloc.
Proof. apply only_same. intros s a' s' [= <- <-]. destruct s; reflexivity. Qed.

Lemma only_free p : only kind (free p).
Proof.
  apply only_same. intros s a s' H. unfold free in H.
  destruct p as [b|]; [|inversion H; reflexivity].
  destruct (decide (b ∈ live s)); [|discriminate H].
  inversion H. destruct s; reflexivity.
Qed.

Lemma only_bind {A B} (m : M A) (k : A -> M B) :
  only kind m -> (forall a, only kind (k a)) -> only kind (bind m k).
Proof.
  intros Hm Hk s b s' H. unfold bind in H.
  destruct (m s) as [a s1|f s1] eqn:Hms; [|discriminate H].
  destruct (Hm _ _ _ Hms) as (n1 & Ht1 & Hf1).
  destruct (Hk a _ _ _ H) as (n2 & Ht2 & Hf2).
  exists (n1 ++ n2). rewrite Ht2, Ht1, <- app_assoc.
  split; [reflexivity|]. apply Forall_app. split; assumption.
Qed.

End Only.

Ltac only_step :=
  first
    [ apply only_bind; [|intro]
    | apply only_ret
    | apply only_get
    | apply only_crash
    | apply only_alloc
    | apply only_free
    | apply only_event; reflexivity
    | apply only_modify; intros []; reflexivity
    | match goal with
      | |- only _ (if ?b then _ else _) => destruct b
      | |- only _ (match ?x with _ => _ end) => destruct x
      end ].

Ltac only_auto :=
  unfold free_and_null, alloc_if, qDebug, deref; repeat only_step.

Lemma logs_h264Init p : only is_log (h264Init p).
Proof. unfold h264Init. only_auto. Qed.

Lemma logs_try_stream i st idx : only is_log (try_stream i st idx).
Proof. unfold try_stream. only_auto. Qed.

Lemma logs_stream_loop ss : forall i idx, only is_log (stream_loop i ss idx).
Proof.
  induction ss as [|st rest IH]; intros i idx; simpl; [apply only_ret|].
  apply only_bind; [apply logs_try_stream | intro; apply IH].
Qed.

Lemma logs_h264Exit : only is_log h264Exit.
Proof. unfold h264Exit. only_auto. Qed.

Lemma log_is_connection_event e : is_log e = true -> is_connection_event e = true.
Proof. destruct e; simpl; intros H; try discriminate H; reflexivity. Qed.

(** Property X9.  When no session is open and none of the (at most 2^31)
    streams opens, [h264Loop] returns [false] with the session torn down,
    and all it did that the outside sees is commands, reads and
    diagnostics, those of the selection and those of the connection that
    feeds the probe: no packet is read from the demuxer for decoding,
    nothing is sent to a decoder and no frame is emitted. *)
Theorem h264Loop_no_stream (w : World) (s : State) :
  idle s ->
  Z.of_nat (length (streams w)) <= 2 ^ 31 ->
  Forall (fun st => opens st = false) (streams w) ->
  exists s' new,
    h264Loop w s = Ok (Some false) s' /\
    trace s' = trace s ++ new /\
    Forall (fun e => is_connection_event e = true) new /\
    torn_down s'.
Proof.
  intros Hidle Hlen Hnone. unfold h264Loop. unfold bind at 1.
  destruct (h264Init_ok (probe w) s Hidle) as (ok & s1 & Hinit & Hs1).
  rewrite Hinit.
  destruct (logs_h264Init _ _ _ _ Hinit) as (n1 & Ht1 & Hl1).
  assert (Hquit : forall (s2 : State) n2,
             session_ok s2 -> trace s2 = trace s ++ n2 ->
             Forall (fun e => is_log e = true) n2 ->
             exists s' new,
               (exec h264Exit; ret (Some false)) s2 = Ok (Some false) s' /\
               trace s' = trace s ++ new /\
               Forall (fun e => is_connection_event e = true) new /\ torn_down s').
  { intros s2 n2 Hs2 Ht2 Hl2. unfold bind.
    destruct (h264Exit_ok s2 Hs2) as (s3 & Hexit & Hdown & Ht3).
    rewrite Hexit. exists s3, n2.
    split; [reflexivity|]. split; [congruence|]. split; [|exact Hdown].
    eapply Forall_impl; [exact Hl2|]. exact log_is_connection_event. }
  destruct ok; simpl; [|exact (Hquit s1 n1 Hs1 Ht1 Hl1)].
  unfold bind at 1. unfold h264VideoStreamIndex.
  destruct (stream_loop_ok (streams w) 0 (-1) s1 Hs1) as (idx & s2 & Hsel & Hs2).
  destruct (stream_loop_last (streams w) 0 (-1) s1) as (idx' & s2' & Hsel' & Hidx);
    [lia|lia|].
  rewrite Hsel in Hsel'. inversion Hsel'; subst idx' s2'; clear Hsel'.
  rewrite Hsel.
  destruct (logs_stream_loop _ _ _ _ _ _ Hsel) as (n2 & Ht2 & Hl2).
  assert (Hminus : idx = -1).
  { destruct Hidx as [[Hidx _]|(k & st & _ & Hlk & Hop & _)]; [exact Hidx|].
    rewrite Forall_lookup in Hnone. specialize (Hnone k st Hlk). congruence. }
  subst idx. cbn [Z.eqb Pos.eqb].
  apply (Hquit s2 (n1 ++ n2) Hs2).
  - rewrite Ht2, Ht1, <- app_assoc. reflexivity.
  - apply Forall_app. split; assumption.
Qed.

Lemma h264Loop_no_stream_witness :
  idle s0 /\
  Z.of_nat (length (streams world_no_stream)) <= 2 ^ 31 /\
  Forall (fun st => opens st = false) (streams world_no_stream) /\
  exists s' new,
    h264Loop world_no_stream s0 = Ok (Some false) s' /\
    trace s' = trace s0 ++ new /\
    Forall (fun e => is_connection_event e = true) new /\
    torn_down s'.
Proof.
  assert (H2 : Z.of_nat (length (streams world_no_stream)) <= 2 ^ 31)
    by (vm_compute; discriminate).
  assert (H3 : Forall (fun st => opens st = false) (streams world_no_stream))
    by (repeat constructor).
  split; [apply idle_new_thread|]. split; [exact H2|]. split; [exact H3|].
  exact (h264Loop_no_stream world_no_stream s0 (idle_new_thread _ _ _ _) H2 H3).
Defined.

(** ** The branches of the decode loop *)

Lemma not_drain_signal r :
  r <> AV.AVERROR AV.EAGAIN -> r <> AV.AVERROR_EOF -> is_drain_signal r = false.
Proof.
  intros H1 H2. unfold is_drain_signal.
  destruct (Z.eqb_spec r (AV.AVERROR AV.EAGAIN)); [contradiction|].
  destruct (Z.eqb_spec r AV.AVERROR_EOF); [contradiction|]. reflexivity.
Qed.

Lemma not_drain_signal_nonneg r : 0 <= r -> is_drain_signal r = false.
Proof.
  intros H. destruct (is_drain_signal r) eqn:Hs; [|reflexivity].
  apply drain_signal_negative in Hs. lia.
Qed.

(** Property X10.  An error of avcodec_receive_frame other than EAGAIN
    and end-of-input, on a packet of the selected stream that the decoder
    accepted, ends the drain pass only: it is logged, the packet is
    released, no frame is emitted, and the decode loop goes on with the
    next iteration with its result unchanged. *)
Theorem receive_error_ends_drain_only
  (idx : Z) (it : Iter) (rest : list Iter) (res : bool) (s : State)
  (r : Z) (more : list Z) :
  interruption it = false ->
  0 <= av_read_frame it ->
  stream_index it = idx ->
  0 <= avcodec_send_packet it ->
  avcodec_receive_frame it = r :: more ->
  r < 0 ->
  r <> AV.AVERROR AV.EAGAIN ->
  r <> AV.AVERROR_EOF ->
  decode_loop idx (it :: rest) res s
  = decode_loop idx rest res
      (after s [AvReadFrame (av_read_frame it);
                AvcodecSendPacket (avcodec_send_packet it);
                AvcodecReceiveFrame r;
                Log (LogReceiveFrameFailed r);
                AvPacketUnref]).
Proof.
  intros Hint Hread Hidx Hsend Hrecv Hneg H1 H2. simpl.
  rewrite Hint, bind_event, (not_drain_signal_nonneg _ Hread).
  destruct (Z.ltb_spec (av_read_frame it) 0) as [?|_]; [lia|]. simpl.
  rewrite Hidx, Z.eqb_refl. simpl. rewrite bind_event, after_after.
  destruct (Z.ltb_spec (avcodec_send_packet it) 0) as [?|_]; [lia|].
  unfold bind at 1. rewrite Hrecv. cbn [receive_loop].
  rewrite bind_event, after_after, (not_drain_signal _ H1 H2).
  destruct (Z.ltb_spec r 0) as [_|?]; [|lia].
  rewrite bind_qDebug, after_after. unfold ret at 1.
  rewrite bind_event, after_after. reflexivity.
Qed.

Lemma receive_error_ends_drain_only_witness :
  interruption iter_decode_error = false /\
  0 <= av_read_frame iter_decode_error /\
  stream_index iter_decode_error = 0 /\
  0 <= avcodec_send_packet iter_decode_error /\
  avcodec_receive_frame iter_decode_error = -22 :: [] /\
  -22 < 0 /\ -22 <> AV.AVERROR AV.EAGAIN /\ -22 <> AV.AVERROR_EOF /\
  decode_loop 0 (iter_decode_error :: [iter_frame]) false s0
  = decode_loop 0 [iter_frame] false
      (after s0 [AvReadFrame 0; AvcodecSendPacket 0; AvcodecReceiveFrame (-22);
                 Log (LogReceiveFrameFailed (-22)); AvPacketUnref]).
Proof.
  assert (H2 : 0 <= av_read_frame iter_decode_error) by (vm_compute; discriminate).
  assert (H4 : 0 <= avcodec_send_packet iter_decode_error) by (vm_compute; discriminate).
  assert (H7 : -22 <> AV.AVERROR AV.EAGAIN) by (vm_compute; discriminate).
  assert (H8 : -22 <> AV.AVERROR_EOF) by (vm_compute; discriminate).
  split; [reflexivity|]. split; [exact H2|]. split; [reflexivity|].
  split; [exact H4|]. split; [reflexivity|]. split; [reflexivity|].
  split; [exact H7|]. split; [exact H8|].
  exact (receive_error_ends_drain_only 0 iter_decode_error [iter_frame] false s0
           (-22) [] eq_refl H2 eq_refl H4 eq_refl eq_refl H7 H8).
Defined.

(** Property X11.  An error of avcodec_send_packet other than EAGAIN, on
    a packet of the selected stream or on the empty packet of a drain
    signal, ends the decode loop: it is logged, the loop returns the
    result it had, avcodec_receive_frame is not called, and the packet is
    not released, since the [break] leaves the loop before
    av_packet_unref. *)
Theorem fatal_send_ends_loop
  (idx : Z) (it : Iter) (rest : list Iter) (res : bool) (s : State) :
  interruption it = false ->
  (0 <= av_read_frame it /\ stream_index it = idx) \/
  is_drain_signal (av_read_frame it) = true ->
  avcodec_send_packet it < 0 ->
  avcodec_send_packet it <> AV.AVERROR AV.EAGAIN ->
  decode_loop idx (it :: rest) res s
  = Ok (Some res)
       (after s [AvReadFrame (av_read_frame it);
                 AvcodecSendPacket (avcodec_send_packet it);
                 Log (LogSendPacketFailed (avcodec_send_packet it))]).
Proof.
  intros Hint Hfeed Hneg Hne. simpl. rewrite Hint, bind_event.
  assert (Hgo : (av_read_frame it <? 0) && negb (is_drain_signal (av_read_frame it)) = false
                /\ (stream_index it =? idx) || is_drain_signal (av_read_frame it) = true).
  { destruct Hfeed as [[Hread Hidx]|Hsig].
    - destruct (Z.ltb_spec (av_read_frame it) 0) as [?|_]; [lia|].
      rewrite Hidx, Z.eqb_refl. split; reflexivity.
    - rewrite Hsig, andb_false_r, orb_true_r. split; reflexivity. }
  destruct Hgo as [Hgo1 Hgo2]. rewrite Hgo1, Hgo2.
  rewrite bind_event, after_after.
  destruct (Z.ltb_spec (avcodec_send_packet it) 0) as [_|?]; [|lia].
  destruct (Z.eqb_spec (avcodec_send_packet it) (AV.AVERROR AV.EAGAIN));
    [contradiction|]. simpl.
  rewrite bind_qDebug, after_after. reflexivity.
Qed.

Lemma fatal_send_ends_loop_witness :
  interruption iter_send_failed = false /\
  ((0 <= av_read_frame iter_send_failed /\ stream_index iter_send_failed = 0) \/
   is_drain_signal (av_read_frame iter_send_failed) = true) /\
  avcodec_send_packet iter_send_failed < 0 /\
  avcodec_send_packet iter_send_failed <> AV.AVERROR AV.EAGAIN /\
  decode_loop 0 (iter_send_failed :: [iter_frame]) false s0
  = Ok (Some false)
       (after s0 [AvReadFrame 0; AvcodecSendPacket (-22);
                  Log (LogSendPacketFailed (-22))]).
Proof.
  assert (H2 : (0 <= av_read_frame iter_send_failed /\ stream_index iter_send_failed = 0) \/
               is_drain_signal (av_read_frame iter_send_failed) = true).
  { left. split; [vm_compute; discriminate|reflexivity]. }
  assert (H4 : avcodec_send_packet iter_send_failed <> AV.AVERROR AV.EAGAIN)
    by (vm_compute; discriminate).
  split; [reflexivity|]. split; [exact H2|]. split; [reflexivity|]. split; [exact H4|].
  exact (fatal_send_ends_loop 0 iter_send_failed [iter_frame] false s0
           eq_refl H2 eq_refl H4).
Defined.

(** One packet of another stream: it is read and released. *)
Lemma foreign_packet_is_dropped
  (idx : Z) (it : Iter) (rest : list Iter) (res : bool) (s : State) :
  interruption it = false ->
  0 <= av_read_frame it ->
  stream_index it <> idx ->
  decode_loop idx (it :: rest) res s
  = decode_loop idx rest res
      (after s [AvReadFrame (av_read_frame it); AvPacketUnref]).
Proof.
  intros Hint Hread Hidx. simpl.
  rewrite Hint, bind_event, (not_drain_signal_nonneg _ Hread).
  destruct (Z.ltb_spec (av_read_frame it) 0) as [?|_]; [lia|]. simpl.
  destruct (Z.eqb_spec (stream_index it) idx); [contradiction|]. simpl.
  rewrite bind_event, after_after. reflexivity.
Qed.

(** Property X12.  Packets of streams other than the selected one are
    read and released and nothing else: a run of such packets, however
    long, sends nothing to the decoder, emits no frame, writes no
    diagnostic, and leaves the result of the loop as it was. *)
Theorem foreign_packets_are_dropped
  (idx : Z) (pre rest : list Iter) (res : bool) :
  forall s : State,
  Forall (fun it => interruption it = false /\ 0 <= av_read_frame it /\
                    stream_index it <> idx) pre ->
  decode_loop idx (pre ++ rest) res s
  = decode_loop idx rest res
      (after s (concat (map (fun it => [AvReadFrame (av_read_frame it); AvPacketUnref])
                            pre))).
Proof.
  induction pre as [|it more IH]; intros s Hall.
  - simpl. rewrite after_nil. reflexivity.
  - inversion Hall as [|? ? (Hint & Hread & Hidx) Hmore]; subst.
    cbn [app map concat].
    rewrite (foreign_packet_is_dropped idx it (more ++ rest) res s Hint Hread Hidx).
    rewrite (IH _ Hmore), after_after. reflexivity.
Qed.

Lemma foreign_packets_are_dropped_witness :
  Forall (fun it => interruption it = false /\ 0 <= av_read_frame it /\
                    stream_index it <> 0) [iter_other_stream; iter_other_stream] /\
  decode_loop 0 ([iter_other_stream; iter_other_stream] ++ [iter_frame]) false s0
  = decode_loop 0 [iter_frame] false
      (after s0 [AvReadFrame 0; AvPacketUnref; AvReadFrame 0; AvPacketUnref]).
Proof.
  assert (H1 : interruption iter_other_stream = false /\
               0 <= av_read_frame iter_other_stream /\
               stream_index iter_other_stream <> 0).
  { split; [reflexivity|]. split; vm_compute; discriminate. }
  assert (H : Forall (fun it => interruption it = false /\ 0 <= av_read_frame it /\
                                stream_index it <> 0)
                [iter_other_stream; iter_other_stream]).
  { constructor; [exact H1|]. constructor; [exact H1|constructor]. }
  split; [exact H|].
  exact (foreign_packets_are_dropped 0 [iter_other_stream; iter_other_stream]
           [iter_frame] false s0 H).
Defined.

(** *** One frame for each decoded frame *)

(** Property X13.  Whatever the state, the demuxer and the decoder, the
    decode loop changes nothing of the worker but the trace, and in what it
    adds, however it ends, every emitted frame was scaled and every scaled
    frame was decoded, with at most one decoded frame not emitted.  When
    the loop returns there is none: as many frames were emitted as calls
    of avcodec_receive_frame succeeded and as sws_scale was called, so no
    decoded frame is dropped or emitted twice and nothing is emitted that
    was not decoded.  And the loop does return, without a fault, in a
    session that has the decoder context, the scaler, both frames and the
    RGB picture. *)
Theorem decode_loop_frame_per_decoded
  (idx : Z) (its : list Iter) (res : bool) (s : State) :
  exists new,
    state_of (decode_loop idx its res s) = after s new /\
    (length (frames new) <= count is_scaled new <= count is_received new)%nat /\
    (count is_received new <= S (length (frames new)))%nat /\
    (forall r s',
       decode_loop idx its res s = Ok r s' ->
       count is_received new = length (frames new) /\
       count is_scaled new = length (frames new)) /\
    (decoder_ready s -> exists r, decode_loop idx its res s = Ok r (after s new)).
Proof.
  destruct (decode_loop_outcome idx its res s) as (new & _ & Hout).
  exists new.
  destruct Hout as [(r & Hrun & _ & _ & Hc1 & Hc2)|(Hrun & Hnot & Hc1 & Hc2)];
    rewrite Hrun; cbn [state_of].
  - split; [reflexivity|]. split; [lia|]. split; [lia|].
    split; [intros _ _ _; split; assumption|].
    intros _. exists r. reflexivity.
  - split; [reflexivity|]. split; [destruct Hc2; lia|]. split; [lia|].
    split; [intros r s' H; discriminate H|].
    intros Hready. apply decoder_ready_frame_ready in Hready. congruence.
Qed.

(** The session after the probe and the selection on one video stream has
    what the loop uses, and the loop on a packet that decodes to one frame
    emits that frame. *)
Example decode_loop_session1 :
  decoder_ready session1 /\
  exists s',
    decode_loop 0 [iter_frame; iter_eof] false session1 = Ok (Some true) s' /\
    trace s'
    = [AvReadFrame 0; AvcodecSendPacket 0; AvcodecReceiveFrame 0; SwsScale;
       ImageReady (Qt.mkQImage 480 800 Qt.Format_RGB888 Qt.Picture);
       AvcodecReceiveFrame (AV.AVERROR AV.EAGAIN); AvPacketUnref;
       AvReadFrame AV.AVERROR_EOF; AvcodecSendPacket 0;
       AvcodecReceiveFrame AV.AVERROR_EOF; AvPacketUnref].
Proof.
  split.
  - repeat split; eexists; (split; [vm_compute; reflexivity|]);
      apply (bool_decide_unpack _); vm_compute; exact I.
  - eexists. split; vm_compute; reflexivity.
Qed.

(** *** What the decode loop finds *)

(** Property X16.  Started with no session open, the probe and the stream
    selection do not fault, and when the selection returns an index, the
    session that the decode loop then works with has the decoder context,
    the scaler, both frames and the RGB picture exactly when FFmpeg
    equipped it: av_image_alloc succeeded, and the last video stream with
    a decoder opened and got a scaler.  The code tests none of this before
    it enters the loop. *)
Theorem session_ready_iff_equipped (w : World) (s : State) :
  idle s ->
  exists ok s1 idx s2,
    h264Init (probe w) s = Ok ok s1 /\
    h264VideoStreamIndex (streams w) s1 = Ok idx s2 /\
    (idx <> -1 -> (decoder_ready s2 <-> equipped w = true)).
Proof.
  intros Hidle.
  destruct (h264Init_ok (probe w) s Hidle) as (ok & s1 & Hinit & Hs1).
  destruct (stream_loop_ok (streams w) 0 (-1) s1 Hs1) as (idx & s2 & Hsel & _).
  exists ok, s1, idx, s2. split; [exact Hinit|]. split; [exact Hsel|].
  intros Hidx. exact (selection_ready w s ok s1 idx s2 Hidle Hinit Hsel Hidx).
Qed.

Lemma session_ready_iff_equipped_witness :
  idle s0 /\
  exists ok s1 idx s2,
    h264Init (probe world_no_decoder) s0 = Ok ok s1 /\
    h264VideoStreamIndex (streams world_no_decoder) s1 = Ok idx s2 /\
    (idx <> -1 -> (decoder_ready s2 <-> equipped world_no_decoder = true)).
Proof.
  split; [apply idle_new_thread|].
  exact (session_ready_iff_equipped world_no_decoder s0 (idle_new_thread _ _ _ _)).
Defined.

(** On that script the selection returns the index of the first stream,
    with the decoder context reset by the second: the session is not
    equipped, and the loop calls the decoder on a null context. *)
Example session_without_decoder :
  equipped world_no_decoder = false /\
  exists s2,
    (exec h264Init (probe world_no_decoder);
     h264VideoStreamIndex (streams world_no_decoder)) s0 = Ok 0 s2 /\
    m_codecCtx s2 = None /\ m_swsContext s2 <> None.
Proof.
  split; [reflexivity|]. eexists. split; [vm_compute; reflexivity|].
  split; [reflexivity|discriminate].
Qed.

(** ** The teardown *)

(** Property X14.  Started with no session open, whenever [h264Loop]
    returns, by whichever way out, the session is torn down: both frames,
    the RGB picture, the decoder context and the format context are NULL.
    And in a session that FFmpeg equips, with a script that lets the loop
    end, it does return. *)
Theorem h264Loop_always_tears_down (w : World) (s : State) :
  idle s ->
  (forall res s', h264Loop w s = Ok (Some res) s' -> torn_down s') /\
  (equipped w = true -> loop_ends (iters w) ->
   exists res s', h264Loop w s = Ok (Some res) s' /\ torn_down s').
Proof.
  intros Hidle. split.
  - intros res s' Hrun.
    destruct (h264Loop_outcome w s Hidle)
      as (new & _ & [(r & s1 & Hrun1 & _ & _ & Hres)|(s1 & Hrun1 & _)]);
      rewrite Hrun in Hrun1; [|discriminate Hrun1].
    inversion Hrun1; subst r s1. apply Hres.
  - intros Heq Hends.
    destruct (h264Loop_runs w s Hidle Heq) as (r & s' & new & Hrun & _ & _ & Hend & Hres).
    destruct r as [res|]; [|contradiction (Hend Hends); reflexivity].
    exists res, s'. split; [exact Hrun|apply Hres].
Qed.

Lemma loop_ends_world_stopped : loop_ends (iters world_stopped).
Proof.
  split.
  - apply Exists_cons_tl, Exists_cons_hd. reflexivity.
  - repeat constructor; vm_compute; reflexivity.
Qed.

Lemma h264Loop_always_tears_down_witness :
  idle s0 /\
  equipped world_stopped = true /\
  loop_ends (iters world_stopped) /\
  (forall res s', h264Loop world_stopped s0 = Ok (Some res) s' -> torn_down s') /\
  (exists res s', h264Loop world_stopped s0 = Ok (Some res) s' /\ torn_down s').
Proof.
  split; [apply idle_new_thread|]. split; [reflexivity|].
  split; [exact loop_ends_world_stopped|].
  destruct (h264Loop_always_tears_down world_stopped s0 (idle_new_thread _ _ _ _))
    as (Hdown & Hruns).
  split; [exact Hdown|]. exact (Hruns eq_refl loop_ends_world_stopped).
Defined.

(** Property X15.  Whenever [h264Exit] completes, the pointers that FFmpeg
    resets are NULL, but [m_swsContext] is what it was: if it held a
    scaler, that scaler was allocated before the call and is freed after
    it, so the member is left dangling. *)
Theorem h264Exit_leaves_scaler_pointer (s s' : State) :
  h264Exit s = Ok tt s' ->
  torn_down s' /\
  m_swsContext s' = m_swsContext s /\
  forall b, m_swsContext s = Some b -> b ∈ live s /\ b ∉ live s'.
Proof.
  intros H.
  destruct s as [w h ms mode sws frame rgb ctx fmt data0 pb lv nx tr].
  destruct sws as [sws|], frame as [frame|], rgb as [rgb|], ctx as [ctx|],
    fmt as [fmt|], data0 as [data0|], pb as [pb|].
  all: unfold h264Exit in H; unfold_m; unfold free in H; hsimpl.
  all: repeat (match type of H with
               | context [@decide ?P ?d] => destruct (@decide P d)
               end; hsimpl; try discriminate H).
  all: try discriminate H.
  all: inversion H; subst s'; clear H; hsimpl.
  all: split; [unfold torn_down; hsimpl; repeat split; reflexivity|].
  all: split; [reflexivity|].
  all: intros b Hb; inversion Hb; subst b; clear Hb.
  all: split; [assumption|].
  all: intros Hin;
    repeat match goal with
           | Hx : _ ∈ _ ∖ _ |- _ => apply elem_of_difference in Hx; destruct Hx
           end;
    match goal with
    | Hx : ?b ∉ {[ ?b ]} |- _ => apply Hx, elem_of_singleton; reflexivity
    end.
Qed.

Lemma h264Exit_leaves_scaler_pointer_witness :
  h264Exit session1 = Ok tt closed1 /\
  torn_down closed1 /\
  m_swsContext closed1 = m_swsContext session1 /\
  forall b, m_swsContext session1 = Some b -> b ∈ live session1 /\ b ∉ live closed1.
Proof.
  assert (H1 : h264Exit session1 = Ok tt closed1) by (vm_compute; reflexivity).
  split; [exact H1|].
  exact (h264Exit_leaves_scaler_pointer session1 closed1 H1).
Defined.

(** *** The I/O buffer *)










(** The same when the run ends in a fault. *)
Example h264Loop_keeps_io_buffer_fault :
  exists s', h264Loop world_no_picture s0 = Crash NullDeref s' /\
             (next s0 ∉ live s0) /\ (next s0 ∈ live s').
Proof.
  eexists. split; [vm_compute; reflexivity|]. split.
  - apply not_elem_of_empty.
  - apply (bool_decide_unpack _). vm_compute. exact I.
Qed.

(** ** The snapshot loop *)

(** The snapshot loop does not fault and changes nothing but the trace,
    to which it adds rounds of a frame and a sleep. *)
Lemma nativeLoop_rounds (shs : list Shot) :
  forall s : State,
  exists r imgs,
    nativeLoop shs s = Ok r (after s (rounds_of (m_nativeInterval s) imgs)).
Proof.
  induction shs as [|sh rest IH]; intros s.
  - exists None, []. unfold rounds_of. simpl. rewrite after_nil. reflexivity.
  - destruct (shot_interruption sh) eqn:Hi.
    { exists (Some tt), []. unfold rounds_of. simpl. rewrite Hi, after_nil. reflexivity. }
    assert (Hround : isScreenAwake sh = false \/ m_videoMode s <> FastH264 ->
      exists r imgs,
        nativeLoop (sh :: rest) s
        = Ok r (after s (rounds_of (m_nativeInterval s) imgs))).
    { intros Hmode. rewrite (nativeLoop_round sh rest s Hi Hmode).
      destruct (IH (after s [ImageReady (round_frame s sh);
                             Msleep (m_nativeInterval s)])) as (r & imgs & Hrun).
      exists r, (round_frame s sh :: imgs).
      rewrite Hrun, after_after, interval_after. reflexivity. }
    destruct (isScreenAwake sh) eqn:Ha; [|apply Hround; left; reflexivity].
    destruct (m_videoMode s) eqn:Hm; try (apply Hround; right; discriminate).
    exists (Some tt), []. unfold rounds_of. cbn [nativeLoop].
    rewrite Hi, !bind_get, Ha, Hm. simpl. rewrite after_nil. reflexivity.
Qed.

(** Property X18.  Whatever the mode and whatever the device answers, the
    snapshot loop does not fault and changes nothing of the worker but
    the trace, and what it adds is a sequence of rounds, each one frame
    followed by one sleep of the configured interval: every frame is
    followed by a sleep, and there is no sleep without a frame. *)
Theorem nativeLoop_frame_then_sleep (shs : list Shot) (s : State) :
  exists r new,
    nativeLoop shs s = Ok r (after s new) /\
    new = rounds_of (m_nativeInterval s) (frames new).
Proof.
  destruct (nativeLoop_rounds shs s) as (r & imgs & Hrun).
  exists r, (rounds_of (m_nativeInterval s) imgs). split; [exact Hrun|].
  rewrite frames_rounds_of. reflexivity.
Qed.

Lemma nativeLoop_running (pre : list Shot) : forall s : State,
  m_videoMode s <> FastH264 ->
  Forall (fun sh => shot_interruption sh = false) pre ->
  exists imgs,
    length imgs = length pre /\
    forall rest,
      nativeLoop (pre ++ rest) s
      = nativeLoop rest (after s (rounds_of (m_nativeInterval s) imgs)).
Proof.
  induction pre as [|sh more IH]; intros s Hmode Hall.
  - exists []. split; [reflexivity|]. intros rest.
    unfold rounds_of. simpl. rewrite after_nil. reflexivity.
  - inversion Hall as [|? ? Hi Hmore]; subst.
    destruct (IH (after s [ImageReady (round_frame s sh); Msleep (m_nativeInterval s)]))
      as (imgs & Hlen & Hrun); [rewrite videoMode_after; exact Hmode|exact Hmore|].
    exists (round_frame s sh :: imgs). split; [simpl; congruence|]. intros rest.
    cbn [app]. rewrite (nativeLoop_round sh _ s Hi (or_intror Hmode)).
    rewrite Hrun, after_after, interval_after. reflexivity.
Qed.

(** Property X19.  In a still-image mode the snapshot loop has no way out
    but the interruption flag: as long as the flag is not set, each
    iteration emits one frame and sleeps, whether the display is on or
    off and whether the fetch succeeds or not, and the loop is still
    running after them; it returns at the first iteration that finds the
    flag set, with no further frame. *)
Theorem nativeLoop_still_mode_runs_until_interrupted (pre : list Shot) (s : State) :
  m_videoMode s <> FastH264 ->
  Forall (fun sh => shot_interruption sh = false) pre ->
  exists imgs,
    length imgs = length pre /\
    nativeLoop pre s = Ok None (after s (rounds_of (m_nativeInterval s) imgs)) /\
    forall sh post,
      shot_interruption sh = true ->
      nativeLoop (pre ++ sh :: post) s
      = Ok (Some tt) (after s (rounds_of (m_nativeInterval s) imgs)).
Proof.
  intros Hmode Hall.
  destruct (nativeLoop_running pre s Hmode Hall) as (imgs & Hlen & Hrun).
  exists imgs. split; [exact Hlen|]. split.
  - rewrite <- (app_nil_r pre) at 1. rewrite Hrun. reflexivity.
  - intros sh post Hi. rewrite Hrun. cbn [nativeLoop]. rewrite Hi. reflexivity.
Qed.

Lemma nativeLoop_still_mode_runs_until_interrupted_witness :
  m_videoMode snapshot_thread <> FastH264 /\
  Forall (fun sh => shot_interruption sh = false) [shot_asleep; shot_awake] /\
  exists imgs,
    length imgs = length [shot_asleep; shot_awake] /\
    nativeLoop [shot_asleep; shot_awake] snapshot_thread
    = Ok None (after snapshot_thread
                 (rounds_of (m_nativeInterval snapshot_thread) imgs)) /\
    forall sh post,
      shot_interruption sh = true ->
      nativeLoop ([shot_asleep; shot_awake] ++ sh :: post) snapshot_thread
      = Ok (Some tt) (after snapshot_thread
                        (rounds_of (m_nativeInterval snapshot_thread) imgs)).
Proof.
  assert (H1 : m_videoMode snapshot_thread <> FastH264) by discriminate.
  assert (H2 : Forall (fun sh => shot_interruption sh = false) [shot_asleep; shot_awake])
    by (repeat constructor).
  split; [exact H1|]. split; [exact H2|].
  exact (nativeLoop_still_mode_runs_until_interrupted
           [shot_asleep; shot_awake] snapshot_thread H1 H2).
Defined.

(** Property X20.  In a still-image mode, with the display on, a fetch
    that fails (the device returns a null image) is not skipped: the null
    image goes through scaledToWidth, which leaves it null, and is
    emitted to the consumer, followed by the sleep. *)
Theorem nativeLoop_failed_fetch_emits_null (sh : Shot) (rest : list Shot) (s : State) :
  m_videoMode s <> FastH264 ->
  shot_interruption sh = false ->
  isScreenAwake sh = true ->
  Qt.isNull (fetch_of (m_videoMode s) sh) = true ->
  nativeLoop (sh :: rest) s
  = nativeLoop rest (after s [ImageReady Qt.null_image; Msleep (m_nativeInterval s)]).
Proof.
  intros Hmode Hi Ha Hnull.
  rewrite (nativeLoop_round sh rest s Hi (or_intror Hmode)).
  unfold round_frame. rewrite Ha. unfold Qt.scaledToWidth. rewrite Hnull. reflexivity.
Qed.

Lemma nativeLoop_failed_fetch_emits_null_witness :
  m_videoMode snapshot_thread <> FastH264 /\
  shot_interruption shot_fetch_failed = false /\
  isScreenAwake shot_fetch_failed = true /\
  Qt.isNull (fetch_of (m_videoMode snapshot_thread) shot_fetch_failed) = true /\
  nativeLoop (shot_fetch_failed :: [shot_interrupted]) snapshot_thread
  = nativeLoop [shot_interrupted]
      (after snapshot_thread [ImageReady Qt.null_image; Msleep 100]).
Proof.
  assert (H1 : m_videoMode snapshot_thread <> FastH264) by discriminate.
  split; [exact H1|]. split; [reflexivity|]. split; [reflexivity|].
  split; [reflexivity|].
  exact (nativeLoop_failed_fetch_emits_null shot_fetch_failed [shot_interrupted]
           snapshot_thread H1 eq_refl eq_refl eq_refl).
Defined.

Lemma rounds_of_round_events interval imgs :
  Forall (fun e => is_round_event e = true) (rounds_of interval imgs).
Proof.
  induction imgs as [|img rest IH]; [constructor|].
  unfold rounds_of in *. simpl. repeat constructor. exact IH.
Qed.

(** Property X21.  In every mode but the compressed-stream mode, [run]
    does not fault and does nothing but emit frames and sleep: it logs
    nothing, sends no screenrecord command, and touches neither the
    demuxer nor the decoder, whatever the scripts of the compressed
    stream hold. *)
Theorem run_snapshot_mode (w : World) (s : State) :
  m_videoMode s <> FastH264 ->
  exists r new,
    run w s = Ok r (after s new) /\
    Forall (fun e => is_round_event e = true) new.
Proof.
  intros Hmode. unfold run. rewrite bind_get.
  destruct (nativeLoop_rounds (shots w) s) as (r & imgs & Hrun).
  destruct (m_videoMode s); try contradiction;
    exists r, (rounds_of (m_nativeInterval s) imgs);
    (split; [exact Hrun|apply rounds_of_round_events]).
Qed.

Lemma run_snapshot_mode_witness :
  m_videoMode snapshot_thread <> FastH264 /\
  exists r new,
    run world1 snapshot_thread = Ok r (after snapshot_thread new) /\
    Forall (fun e => is_round_event e = true) new.
Proof.
  assert (H1 : m_videoMode snapshot_thread <> FastH264) by discriminate.
  split; [exact H1|]. exact (run_snapshot_mode world1 snapshot_thread H1).
Defined.
